(** * Command registry and remote synchronisation of the framework

    A shallow embedding of
      - [Command]            (structures: constructor, unregister, reload, register),
      - [CommandsManager]    (getData, registerAllApplicationCommands,
                              registerPermissions),
      - [EventsHandler]      (readDirAndPush, registerAll),
      - [ShewenyClient]      (the fields those methods read, awaitReady).

    Conventions.
      - A [Collection<string, V>] is a JavaScript [Map]: an association list
        in insertion order with pairwise distinct keys.  [set] on a present
        key replaces the value in place, on an absent key appends.
      - [undefined] / [null] / an omitted optional field is [None].
      - A JavaScript condition is its truthiness: [undefined], [false] and
        the empty string are falsy; every array is truthy.
      - A [throw] (or a rejected promise) is [Rejected e]; a promise that is
        never settled is [Pending].
      - Effects on the remote platform are a trace of calls; effects on the
        process are explicit state passing. *)

From Stdlib Require Import String List Bool ZArith Lia.
Import ListNotations.
Open Scope string_scope.
Open Scope list_scope.

Set Implicit Arguments.

(* ------------------------------------------------------------------ *)
(** * JavaScript values used by the code *)

Definition Snowflake := string.
Definition PermissionString := string.

(** Truthiness of [string | undefined]. *)
Definition truthy_string (s : option string) : bool :=
  match s with
  | Some s => negb (s =? EmptyString)
  | None => false
  end.

(** Truthiness of [boolean | undefined]. *)
Definition truthy_bool (b : option bool) : bool :=
  match b with
  | Some b => b
  | None => false
  end.

(** [x || d] for a value whose only falsy inhabitant here is [undefined]. *)
Definition or_default {A} (x : option A) (d : A) : A :=
  match x with
  | Some a => a
  | None => d
  end.

(** A default parameter [p = d]: [d] is used when the argument is [undefined]. *)
Definition default_param {A} (arg d : option A) : option A :=
  match arg with
  | Some a => Some a
  | None => d
  end.

Inductive JsError :=
| Error (message : string)
| ReferenceError (message : string)
| TypeError (message : string)
| ModuleNotFound (request : string)
| RemoteApiFailure (message : string).

Inductive Outcome (A : Type) :=
| Resolved (a : A)
| Rejected (e : JsError)
| Pending.
Arguments Resolved {A} a.
Arguments Rejected {A} e.
Arguments Pending {A}.

(* ------------------------------------------------------------------ *)
(** * Effects: state passing with rejection *)

Definition M (S A : Type) := S -> Outcome A * S.

Definition ret {S A} (a : A) : M S A := fun s => (Resolved a, s).
Definition throw {S A} (e : JsError) : M S A := fun s => (Rejected e, s).
Definition bind {S A B} (m : M S A) (k : A -> M S B) : M S B :=
  fun s =>
    match m s with
    | (Resolved a, s') => k a s'
    | (Rejected e, s') => (Rejected e, s')
    | (Pending, s') => (Pending, s')
    end.
Definition get_state {S} : M S S := fun s => (Resolved s, s).
Definition put_state {S} (s : S) : M S unit := fun _ => (Resolved tt, s).
Definition lift {S A} (o : Outcome A) : M S A := fun s => (o, s).

Notation "x <- m ;; k" := (bind m (fun x => k))
  (at level 61, m at next level, right associativity).
Notation "m ;;; k" := (bind m (fun _ => k))
  (at level 61, right associativity).

(* ------------------------------------------------------------------ *)
(** * Collection: a JavaScript Map with string keys *)

Module Collection.
Section Ops.
Variable V : Type.

Definition t := list (string * V).

Definition empty : t := [].

Fixpoint get (k : string) (c : t) : option V :=
    match c with
    | [] => None
    | (k', v) :: r => if k =? k' then Some v else get k r
    end.

Fixpoint set (k : string) (v : V) (c : t) : t :=
    match c with
    | [] => [(k, v)]
    | (k', v') :: r => if k =? k' then (k, v) :: r else (k', v') :: set k v r
    end.

Definition delete (k : string) (c : t) : t :=
    filter (fun e => negb (k =? fst e)) c.

Definition values (c : t) : list V := map snd c.
Definition keys (c : t) : list string := map fst c.
Definition size (c : t) : nat := length c.

  (** [filter] of collection-data / discord.js: keeps the entries whose
      value satisfies the predicate, in order. *)
Definition filter (p : V -> bool) (c : t) : t :=
    List.filter (fun e => p (snd e)) c.

  (** The invariant of a Map: no key occurs twice. *)
Definition wf (c : t) : Prop := NoDup (keys c).
End Ops.
Arguments empty {V}.
End Collection.

(* ------------------------------------------------------------------ *)
(** * Command definitions *)

Inductive CommandType :=
| SLASH_COMMAND
| CONTEXT_MENU_USER
| CONTEXT_MENU_MESSAGE
| MESSAGE_COMMAND.

Definition CommandType_eqb (a b : CommandType) : bool :=
  match a, b with
  | SLASH_COMMAND, SLASH_COMMAND
  | CONTEXT_MENU_USER, CONTEXT_MENU_USER
  | CONTEXT_MENU_MESSAGE, CONTEXT_MENU_MESSAGE
  | MESSAGE_COMMAND, MESSAGE_COMMAND => true
  | _, _ => false
  end.

Inductive ChannelKind := GUILD | DM.

(** The options of a slash command and the args of a message command are
    passed through untouched; only their identity matters here. *)
Definition ApplicationCommandOptionData := string.
Definition MessageCommandOptionData := string.

(** [CommandData]: the union of SlashCommandData, ContextMenuUserData,
    ContextMenuMessageData and MessageData; a field a variant does not have
    is an omitted field. *)
Module CommandData.
Record t := {
    name : string;
    description : option string;
    type : option CommandType;
    defaultPermission : option bool;
    options : option (list ApplicationCommandOptionData);
    args : option (list MessageCommandOptionData);
    category : option string;
    channel : option ChannelKind;
    cooldown : option Z;
    adminsOnly : option bool;
    userPermissions : option (list PermissionString);
    clientPermissions : option (list PermissionString);
    aliases : option (list string)
  }.
End CommandData.

Module Command.
Record t := {
    path : option string;            (* BaseStructure.path *)
    name : string;
    description : string;
    type : CommandType;
    defaultPermission : option bool;
    options : option (list ApplicationCommandOptionData);
    args : option (list MessageCommandOptionData);
    category : string;
    channel : option ChannelKind;
    cooldown : Z;
    adminsOnly : bool;
    userPermissions : list PermissionString;
    clientPermissions : list PermissionString;
    aliases : option (list string);
    cooldowns : Collection.t (Collection.t Z)
  }.

  (** [isType(...types)]: [types.includes(this.type)]. *)
Definition isType (ty : CommandType) (types : list CommandType) : bool :=
    existsb (CommandType_eqb ty) types.

  (** [cooldown || 0]: [undefined] and [0] are both falsy. *)
Definition or_zero (x : option Z) : Z :=
    match x with
    | Some z => if (z =? 0)%Z then 0%Z else z
    | None => 0%Z
    end.

  (** [description || ''] and [category || '']. *)
Definition or_empty (x : option string) : string :=
    match x with
    | Some s => if s =? EmptyString then EmptyString else s
    | None => EmptyString
    end.

  (** [new Command(client, data)]; [super(client)] leaves [path] undefined. *)
Definition constructor (data : CommandData.t) : t :=
    let ty := or_default (CommandData.type data) MESSAGE_COMMAND in
    {| path := None;
       name := CommandData.name data;
       description := or_empty (CommandData.description data);
       type := ty;
       defaultPermission :=
         if isType ty [SLASH_COMMAND; CONTEXT_MENU_USER; CONTEXT_MENU_MESSAGE]
         then CommandData.defaultPermission data
         else None;
       options :=
         if isType ty [SLASH_COMMAND] then CommandData.options data else None;
       args :=
         if isType ty [MESSAGE_COMMAND] then CommandData.args data else None;
       category := or_empty (CommandData.category data);
       channel := CommandData.channel data;
       cooldown := or_zero (CommandData.cooldown data);
       adminsOnly := truthy_bool (CommandData.adminsOnly data);
       userPermissions := or_default (CommandData.userPermissions data) [];
       clientPermissions := or_default (CommandData.clientPermissions data) [];
       aliases :=
         if isType ty [MESSAGE_COMMAND] then CommandData.aliases data else Some [];
       cooldowns := Collection.empty |}.

  (** [instance.path = p], as the loaders do after construction. *)
Definition with_path (p : option string) (c : t) : t :=
    {| path := p;
       name := name c;
       description := description c;
       type := type c;
       defaultPermission := defaultPermission c;
       options := options c;
       args := args c;
       category := category c;
       channel := channel c;
       cooldown := cooldown c;
       adminsOnly := adminsOnly c;
       userPermissions := userPermissions c;
       clientPermissions := clientPermissions c;
       aliases := aliases c;
       cooldowns := cooldowns c |}.
End Command.

(* ------------------------------------------------------------------ *)
(** * Node's module table

    [disk] is what loading a path from source yields ([None]: the request
    does not resolve); the exports of a module are its [default] export,
    when it has one, given by what [new Default(client)] constructs.
    [cache] is [require.cache]: the exports as they were when first
    loaded. *)

Module ModuleSystem.
Section Exports.
Variable E : Type.

Record t := {
    disk : Collection.t (option E);
    cache : Collection.t (option E)
  }.

  (** [require.resolve(path)]: throws on a non-string or unresolvable
      request; the resolved file name is the (absolute) path itself. *)
Definition resolve (ms : t) (p : option string) : Outcome string :=
    match p with
    | None =>
        Rejected (TypeError "The request argument must be of type string")
    | Some p =>
        match Collection.get p (disk ms) with
        | Some _ => Resolved p
        | None => Rejected (ModuleNotFound p)
        end
    end.

  (** [delete require.cache[key]]. *)
Definition invalidate (key : string) (ms : t) : t :=
    {| disk := disk ms; cache := Collection.delete key (cache ms) |}.

  (** [(await import(path))]: a cached module is returned as cached,
      otherwise the source is read and cached.  Yields the exports. *)
Definition import (p : option string) : M t (option E) :=
    fun ms =>
      match resolve ms p with
      | Resolved key =>
          match Collection.get key (cache ms) with
          | Some exports => (Resolved exports, ms)
          | None =>
              match Collection.get key (disk ms) with
              | Some exports =>
                  (Resolved exports,
                   {| disk := disk ms;
                      cache := Collection.set key exports (cache ms) |})
              | None => (Rejected (ModuleNotFound key), ms)
              end
          end
      | Rejected e => (Rejected e, ms)
      | Pending => (Pending, ms)
      end.
End Exports.
End ModuleSystem.

(* ------------------------------------------------------------------ *)
(** * The remote platform, as the client sees it *)

Inductive ApplicationCommandType := CHAT_INPUT | MESSAGE | USER.

(** The projection of a command into the remote registration schema.  A
    context-menu projection has no [description] and no [options] field. *)
Module ApplicationCommandData.
Record t := {
    type : ApplicationCommandType;
    name : string;
    description : option string;
    options : option (list ApplicationCommandOptionData);
    defaultPermission : option bool
  }.
End ApplicationCommandData.

(** A remotely registered command. *)
Module ApplicationCommand.
Record t := {
    id : Snowflake;
    name : string
  }.
End ApplicationCommand.

Inductive PermissionTargetKind := ROLE | USER_TARGET.

Module ApplicationCommandPermissionData.
Record t := {
    id : Snowflake;
    type : PermissionTargetKind;
    permission : bool
  }.
End ApplicationCommandPermissionData.

Module GuildApplicationCommandPermissionData.
Record t := {
    id : Snowflake;
    permissions : list ApplicationCommandPermissionData.t
  }.
End GuildApplicationCommandPermissionData.

Module Role.
Record t := {
    id : Snowflake;
    permissions : list PermissionString   (* the granted permission set *)
  }.
End Role.

Module Guild.
Record t := {
    id : Snowflake;
    roles : Collection.t Role.t           (* guild.roles.cache *)
  }.
End Guild.

(** Modelled from the spec: [Permissions.has] belongs to discord.js, which
    is not part of the sources.  The specification describes the test as
    "granted-permission bit-set is a superset of the required set". *)
Definition Permissions_has (granted required : list PermissionString) : bool :=
  forallb (fun p => existsb (String.eqb p) granted) required.

(** The calls that reach the remote platform, in the order issued. *)
Inductive RemoteCall :=
| CommandsSet (data : list ApplicationCommandData.t) (guildId : option Snowflake)
| PermissionsSet (guildId : Snowflake)
                 (fullPermissions : list GuildApplicationCommandPermissionData.t).

Definition Trace := list RemoteCall.

(** What the platform answers; opaque to this code. *)
Module Platform.
Record t := {
    commands_set :
      list ApplicationCommandData.t -> option Snowflake ->
      Outcome (Collection.t ApplicationCommand.t);
    permissions_set :
      Snowflake -> list GuildApplicationCommandPermissionData.t -> Outcome unit
  }.
End Platform.

(** An event handler instance: what [new Event(client)] constructs.  The
    body of [execute] is identified by a label. *)
Module Event.
Record t := {
    name : option string;
    path : option string;
    execute : string
  }.

  (** [instance.path = p]. *)
Definition with_path (p : option string) (e : t) : t :=
    {| name := name e; path := p; execute := execute e |}.
End Event.

Module ShewenyClient.
Record t := {
    admins : list Snowflake;
    events : Collection.t Event.t;       (* client.events *)
    collections_commands : option (Collection.t Command.t);
                                         (* client.collections.commands *)
    application : option (Collection.t ApplicationCommand.t);
                     (* client.application, null until the session is up,
                        given by its commands.cache *)
    guilds : Collection.t Guild.t;       (* client.guilds.cache *)
    ready_emitted : bool                 (* a 'ready' event follows *)
  }.

  (** [awaitReady()]: settles when 'ready' is emitted after the listener
      was attached, and never otherwise. *)
Definition awaitReady {S} (client : t) : M S bool :=
    if ready_emitted client then ret true else lift Pending.

Definition with_commands (cs : option (Collection.t Command.t)) (client : t) : t :=
    {| admins := admins client;
       events := events client;
       collections_commands := cs;
       application := application client;
       guilds := guilds client;
       ready_emitted := ready_emitted client |}.

Definition with_events (es : Collection.t Event.t) (client : t) : t :=
    {| admins := admins client;
       events := es;
       collections_commands := collections_commands client;
       application := application client;
       guilds := guilds client;
       ready_emitted := ready_emitted client |}.
End ShewenyClient.

(** The process a handler method runs in: the client and the module table
    of the handler family ([E]: what a module's default export
    constructs). *)
Module Process.
Section Family.
Variable E : Type.

Record t := {
    client : ShewenyClient.t;
    modules : ModuleSystem.t E
  }.

Definition modify_client (f : ShewenyClient.t -> ShewenyClient.t) : M t unit :=
    fun w => (Resolved tt, {| client := f (client w); modules := modules w |}).

Definition modify_modules (f : ModuleSystem.t E -> ModuleSystem.t E) : M t unit :=
    fun w => (Resolved tt, {| client := client w; modules := f (modules w) |}).

  (** Runs an action on the module table inside the process. *)
Definition in_modules {A} (m : M (ModuleSystem.t E) A) : M t A :=
    fun w =>
      let (o, ms) := m (modules w) in
      (o, {| client := client w; modules := ms |}).

Definition resolve (p : option string) : M t string :=
    fun w => (ModuleSystem.resolve (modules w) p, w).
End Family.
End Process.

(* ------------------------------------------------------------------ *)
(** * CommandsManager *)

Module CommandsManager.
Record t := {
    directory : string;
    guildId : option Snowflake;
    prefix : option string;
    applicationPermissions : option bool;
    commands : option (Collection.t Command.t)
  }.

Definition renameCommandType (ty : CommandType) : option ApplicationCommandType :=
    match ty with
    | SLASH_COMMAND => Some CHAT_INPUT
    | CONTEXT_MENU_MESSAGE => Some MESSAGE
    | CONTEXT_MENU_USER => Some USER
    | MESSAGE_COMMAND => None
    end.

  (** The argument of [getData]: a collection or one command. *)
Inductive CommandsArg :=
  | OfCollection (cs : Collection.t Command.t)
  | OfCommand (c : Command.t).

  (** Its result: an array, one projection, or [undefined]. *)
Inductive Data :=
  | DataArray (l : list ApplicationCommandData.t)
  | DataOne (d : ApplicationCommandData.t)
  | DataUndefined.

  (** [this.applicationPermissions && this.guildId &&
       cmd.userPermissions.length > 0]. *)
Definition permissionsForcedOff (m : t) (cmd : Command.t) : bool :=
    truthy_bool (applicationPermissions m)
    && truthy_string (guildId m)
    && (0 <? length (Command.userPermissions cmd))%nat.

  (** One iteration of the loop of [getData] over a collection:
      [data] after the body has run for [cmd]. *)
Definition getData_step (m : t) (data : list ApplicationCommandData.t)
             (cmd : Command.t) : list ApplicationCommandData.t :=
    if CommandType_eqb (Command.type cmd) MESSAGE_COMMAND then data
    else
      match renameCommandType (Command.type cmd) with
      | None => data
      | Some newType =>
          if CommandType_eqb (Command.type cmd) SLASH_COMMAND then
            data ++
            [ {| ApplicationCommandData.type := newType;
                 ApplicationCommandData.name := Command.name cmd;
                 ApplicationCommandData.description :=
                   Some (Command.description cmd);
                 ApplicationCommandData.options := Command.options cmd;
                 ApplicationCommandData.defaultPermission :=
                   if permissionsForcedOff m cmd then Some false
                   else Command.defaultPermission cmd |} ]
          else if CommandType_eqb (Command.type cmd) CONTEXT_MENU_MESSAGE
                  || CommandType_eqb (Command.type cmd) CONTEXT_MENU_USER then
            data ++
            [ {| ApplicationCommandData.type := newType;
                 ApplicationCommandData.name := Command.name cmd;
                 ApplicationCommandData.description := None;
                 ApplicationCommandData.options := None;
                 ApplicationCommandData.defaultPermission :=
                   if permissionsForcedOff m cmd then Some false
                   else Command.defaultPermission cmd |} ]
          else data
      end.

  (** The branch of [getData] for a single command. *)
Definition getData_command (m : t) (commands : Command.t)
    : option ApplicationCommandData.t :=
    if CommandType_eqb (Command.type commands) MESSAGE_COMMAND then None
    else
      match renameCommandType (Command.type commands) with
      | None => None
      | Some newType =>
          if CommandType_eqb (Command.type commands) SLASH_COMMAND then
            Some {| ApplicationCommandData.type := newType;
                    ApplicationCommandData.name := Command.name commands;
                    ApplicationCommandData.description :=
                      Some (Command.description commands);
                    ApplicationCommandData.options := Command.options commands;
                    ApplicationCommandData.defaultPermission :=
                      if permissionsForcedOff m commands then Some false
                      else Command.defaultPermission commands |}
          else if CommandType_eqb (Command.type commands) CONTEXT_MENU_MESSAGE
                  || CommandType_eqb (Command.type commands) CONTEXT_MENU_USER then
            Some {| ApplicationCommandData.type := newType;
                    ApplicationCommandData.name := Command.name commands;
                    ApplicationCommandData.description := None;
                    ApplicationCommandData.options := None;
                    ApplicationCommandData.defaultPermission :=
                      if permissionsForcedOff m commands then Some false
                      else Command.defaultPermission commands |}
          else None
      end.

  (** The branch of [getData] for a collection: the loop over its values. *)
Definition getData_collection (m : t) (commands : Collection.t Command.t)
    : list ApplicationCommandData.t :=
    fold_left (getData_step m) (Collection.values commands) [].

  (** [getData(commands = this.commands)]. *)
Definition getData (m : t) (arg : option CommandsArg) : Outcome Data :=
    match default_param arg (option_map OfCollection (commands m)) with
    | None => Rejected (Error "Commands not found")
    | Some (OfCollection cs) => Resolved (DataArray (getData_collection m cs))
    | Some (OfCommand c) =>
        match getData_command m c with
        | Some d => Resolved (DataOne d)
        | None => Resolved DataUndefined
        end
    end.

  (** [guildId: Snowflake | Snowflake[]]. *)
Inductive GuildIdArg :=
  | OneGuild (g : Snowflake)
  | ManyGuilds (gs : list Snowflake).

  (** The closure [getRoles] of [registerPermissions]; its argument is
      [commandsCollection.get(appCommand.name)!], which may be undefined. *)
Definition getRoles (guild : option Guild.t) (command : option Command.t)
    : Outcome (option (Collection.t Role.t)) :=
    match command with
    | None => Rejected (TypeError "Cannot read properties of undefined")
    | Some command =>
        if (length (Command.userPermissions command) =? 0)%nat then Resolved None
        else
          Resolved
            (option_map
               (fun g =>
                  Collection.filter
                    (fun r => Permissions_has (Role.permissions r)
                                              (Command.userPermissions command))
                    (Guild.roles g))
               guild)
    end.

Definition roleEntry (role : Role.t) : ApplicationCommandPermissionData.t :=
    {| ApplicationCommandPermissionData.id := Role.id role;
       ApplicationCommandPermissionData.type := ROLE;
       ApplicationCommandPermissionData.permission := true |}.

Definition userEntry (userId : Snowflake) : ApplicationCommandPermissionData.t :=
    {| ApplicationCommandPermissionData.id := userId;
       ApplicationCommandPermissionData.type := USER_TARGET;
       ApplicationCommandPermissionData.permission := true |}.

  (** The array [permissions] built for one remote command. *)
Definition buildPermissions (client : ShewenyClient.t)
             (roles : option (Collection.t Role.t))
    : list ApplicationCommandPermissionData.t :=
    let permissions := [] in
    let permissions :=
      match roles with
      | Some rs =>
          if (0 <? Collection.size rs)%nat
          then fold_left (fun acc role => acc ++ [roleEntry role])
                         (Collection.values rs) permissions
          else permissions
      | None => permissions
      end in
    if (0 <? length (ShewenyClient.admins client))%nat
    then fold_left (fun acc userId => acc ++ [userEntry userId])
                   (ShewenyClient.admins client) permissions
    else permissions.

  (** The loop over the remote commands; [fullPermissions] accumulates. *)
Fixpoint buildFullPermissions (client : ShewenyClient.t)
           (guild : option Guild.t)
           (commandsCollection : Collection.t Command.t)
           (applicationCommands : list ApplicationCommand.t)
           (fullPermissions : list GuildApplicationCommandPermissionData.t)
    : Outcome (list GuildApplicationCommandPermissionData.t) :=
    match applicationCommands with
    | [] => Resolved fullPermissions
    | appCommand :: rest =>
        match getRoles guild
                (Collection.get (ApplicationCommand.name appCommand)
                                commandsCollection) with
        | Resolved roles =>
            buildFullPermissions client guild commandsCollection rest
              (fullPermissions ++
               [ {| GuildApplicationCommandPermissionData.id :=
                      ApplicationCommand.id appCommand;
                    GuildApplicationCommandPermissionData.permissions :=
                      buildPermissions client roles |} ])
        | Rejected e => Rejected e
        | Pending => Pending
        end
    end.

  (** [registerPermissions] for a [guildId] that is not an array. *)
Definition registerPermissions_guild (client : ShewenyClient.t)
             (platform : Platform.t)
             (applicationCommands : Collection.t ApplicationCommand.t)
             (commandsCollection : Collection.t Command.t)
             (guildId : Snowflake) : M Trace unit :=
    if negb (truthy_string (Some guildId))
    then throw (ReferenceError "Guild ID must be provided")
    else
      let guild := Collection.get guildId (ShewenyClient.guilds client) in
      fullPermissions <-
        lift (buildFullPermissions client guild commandsCollection
                (Collection.values applicationCommands) []) ;;
      match guild with
      | None => ret tt                      (* guild?. short-circuits *)
      | Some g =>
          fun trace =>
            (Platform.permissions_set platform (Guild.id g) fullPermissions,
             trace ++ [PermissionsSet (Guild.id g) fullPermissions])
      end.

  (** [guildId.every(async gId => await this.registerPermissions(.., gId))]:
      every callback returns a promise, which is truthy, so each guild is
      visited; a call runs up to its remote request before the next one
      starts, and its outcome is not awaited. *)
Fixpoint registerPermissions_every (client : ShewenyClient.t)
           (platform : Platform.t)
           (applicationCommands : Collection.t ApplicationCommand.t)
           (commandsCollection : Collection.t Command.t)
           (guildIds : list Snowflake) : M Trace bool :=
    match guildIds with
    | [] => ret true
    | gId :: rest =>
        fun trace =>
          let (_, trace') :=
            registerPermissions_guild client platform applicationCommands
              commandsCollection gId trace in
          registerPermissions_every client platform applicationCommands
            commandsCollection rest trace'
    end.

  (** [registerPermissions(applicationCommands = client.application?.commands.cache,
                           commandsCollection = this.commands,
                           guildId = this.guildId)]; resolves to [true] in
      the array case and to [undefined] otherwise. *)
Definition registerPermissions (m : t) (client : ShewenyClient.t)
             (platform : Platform.t)
             (applicationCommands : option (Collection.t ApplicationCommand.t))
             (commandsCollection : option (Collection.t Command.t))
             (guildId : option GuildIdArg) : M Trace (option bool) :=
    match default_param applicationCommands (ShewenyClient.application client) with
    | None => throw (ReferenceError "Commands of application must be provided")
    | Some applicationCommands =>
        match default_param commandsCollection (commands m) with
        | None => throw (ReferenceError "Commands of client must be provided")
        | Some commandsCollection =>
            match default_param guildId (option_map OneGuild (CommandsManager.guildId m)) with
            | None => throw (ReferenceError "Guild ID must be provided")
            | Some (ManyGuilds gs) =>
                b <- registerPermissions_every client platform
                       applicationCommands commandsCollection gs ;;
                ret (Some b)
            | Some (OneGuild g) =>
                registerPermissions_guild client platform applicationCommands
                  commandsCollection g ;;;
                ret None
            end
        end
    end.

  (** [this.client.application?.commands.set(data, guildId)], or
      [.set(data)] when [scope] is [None]. *)
Definition application_commands_set (client : ShewenyClient.t)
             (platform : Platform.t)
             (data : list ApplicationCommandData.t) (scope : option Snowflake)
    : M Trace (option (Collection.t ApplicationCommand.t)) :=
    match ShewenyClient.application client with
    | None => ret None
    | Some _ =>
        fun trace =>
          (match Platform.commands_set platform data scope with
           | Resolved cmds => Resolved (Some cmds)
           | Rejected e => Rejected e
           | Pending => Pending
           end,
           trace ++ [CommandsSet data scope])
    end.

  (** [registerAllApplicationCommands(commands = this.commands,
                                      guildId = this.guildId)]. *)
Definition registerAllApplicationCommands (m : t) (client : ShewenyClient.t)
             (platform : Platform.t)
             (commands : option (Collection.t Command.t))
             (guildId : option Snowflake)
    : M Trace (option (Collection.t ApplicationCommand.t)) :=
    let commands := default_param commands (CommandsManager.commands m) in
    let guildId := default_param guildId (CommandsManager.guildId m) in
    match commands with
    | None => throw (Error "Commands not found")
    | Some _ =>
        data <- lift (getData m None) ;;
        ShewenyClient.awaitReady client ;;;
        match data with
        | DataArray l =>
            if (0 <? length l)%nat then
              cmds <-
                (if truthy_string guildId
                 then application_commands_set client platform l guildId
                 else application_commands_set client platform l None) ;;
              (if truthy_bool (applicationPermissions m)
               then registerPermissions m client platform cmds None None
               else ret None) ;;;
              ret cmds
            else ret None
        | _ => ret None
        end
    end.
End CommandsManager.

(* ------------------------------------------------------------------ *)
(** * Command: unregister, reload, register

    The default export of a command module is a class whose constructor
    calls [super(client, data)]; the module is given by that [data]. *)

Module CommandMethods.
Definition World := Process.t CommandData.t.

  (** [unregister()]. *)
Definition unregister (this : Command.t) : M World bool :=
    Process.modify_client
      (fun client =>
         match ShewenyClient.collections_commands client with
         | Some cs =>
             ShewenyClient.with_commands
               (Some (Collection.delete (Command.name this) cs)) client
         | None => client                  (* commands?. short-circuits *)
         end) ;;;
    key <- Process.resolve (Command.path this) ;;
    Process.modify_modules (ModuleSystem.invalidate key) ;;;
    ret true.

  (** [register()]. *)
Definition register (this : Command.t) : M World (Collection.t Command.t) :=
    exports <- Process.in_modules (ModuleSystem.import (Command.path this)) ;;
    match exports with
    | None => throw (TypeError "Command is not a constructor")
    | Some data =>
        let AC := Command.constructor data in
        w <- get_state ;;
        match ShewenyClient.collections_commands (Process.client w) with
        | Some cs =>
            let cs' := Collection.set (Command.name AC) AC cs in
            Process.modify_client (ShewenyClient.with_commands (Some cs')) ;;;
            ret cs'
        | None => ret (Collection.set (Command.name AC) AC Collection.empty)
        end
    end.

  (** [reload()]; [null] is [None]. *)
Definition reload (this : Command.t) : M World (option (Collection.t Command.t)) :=
    if truthy_string (Command.path this) then
      unregister this ;;;
      cs <- register this ;;
      ret (Some cs)
    else ret None.
End CommandMethods.

(* ------------------------------------------------------------------ *)
(** * EventsHandler *)

Module EventsHandler.
Definition World := Process.t Event.t.

  (** What [readdir] and [stat] report below a directory. *)
#[warnings="-register-all"] Inductive DirEntry :=
  | File (item : string)
  | Directory (item : string) (result : list DirEntry).

  (** [path.join(dir, item)]. *)
Definition join (dir item : string) : string := dir ++ "/" ++ item.

  (** The body of the loop of [read], the inner function of
      [readDirAndPush], for one [item] of [dir]; [files] accumulates. *)
Fixpoint visit (dir : string) (entry : DirEntry) (files : list string)
    : list string :=
    match entry with
    | File item => files ++ [join dir item]
    | Directory item result =>
        fold_left (fun files entry' => visit (join dir item) entry' files)
                  result files
    end.

  (** [read(dir)], where [readdir(dir)] yields [result]. *)
Definition read (dir : string) (result : list DirEntry) (files : list string)
    : list string :=
    fold_left (fun files entry => visit dir entry files) result files.

Definition readDirAndPush (d : string) (tree : list DirEntry) : list string :=
    read d tree [].

  (** One iteration of the loop of [registerAll]. *)
Definition registerAll_step (evtPath : string) : M World unit :=
    Event <- Process.in_modules (ModuleSystem.import (Some evtPath)) ;;
    match Event with
    | None => ret tt                                  (* if (!Event) continue *)
    | Some instance =>
        match Event.name instance with
        | Some name =>
            if name =? EmptyString then ret tt        (* if (!instance.name) continue *)
            else
              let instance := Event.with_path (Some evtPath) instance in
              Process.modify_client
                (fun client =>
                   ShewenyClient.with_events
                     (Collection.set name instance (ShewenyClient.events client))
                     client)
        | None => ret tt
        end
    end.

Fixpoint registerAll_loop (evtsPaths : list string) : M World unit :=
    match evtsPaths with
    | [] => ret tt
    | evtPath :: rest => registerAll_step evtPath ;;; registerAll_loop rest
    end.

  (** [registerAll()], for the paths the traversal produced. *)
Definition registerAll_paths (evtsPaths : list string)
    : M World (Collection.t Event.t) :=
    registerAll_loop evtsPaths ;;;
    w <- get_state ;;
    ret (ShewenyClient.events (Process.client w)).

  (** [registerAll()]: [mainPath] is [require.main.path], [tree] the
      content of the events directory. *)
Definition registerAll (mainPath dir : string) (tree : list DirEntry)
    : M World (Collection.t Event.t) :=
    let baseDir := join mainPath dir in
    registerAll_paths (readDirAndPush baseDir tree).
End EventsHandler.

(* ------------------------------------------------------------------ *)
(** * Notions used in the statements *)

Definition isMessageCommand (cmd : Command.t) : bool :=
  CommandType_eqb (Command.type cmd) MESSAGE_COMMAND.

(** What one command contributes to a projection. *)
Definition projected (m : CommandsManager.t) (cmd : Command.t)
  : list ApplicationCommandData.t :=
  match CommandsManager.getData_command m cmd with
  | Some d => [d]
  | None => []
  end.

(** Permission synchronisation is enabled, a guild id is set and the
    command requires at least one user permission. *)
Definition permissionsRestricted (m : CommandsManager.t) (cmd : Command.t) : Prop :=
  CommandsManager.applicationPermissions m = Some true /\
  (exists g, CommandsManager.guildId m = Some g /\ g <> EmptyString) /\
  Command.userPermissions cmd <> [].

(** The scope of the bulk replace: the guild id when there is one. *)
Definition scopeOf (guildId : option Snowflake) : option Snowflake :=
  if truthy_string guildId then guildId else None.

(** The guild roles allowed to use a command: none when the command
    requires no user permission, otherwise the roles whose granted
    permissions contain every required one, in the order of the guild. *)
Definition allowedRoles (guild : Guild.t) (cmd : Command.t) : list Role.t :=
  match Command.userPermissions cmd with
  | [] => []
  | _ :: _ =>
      List.filter
        (fun r => Permissions_has (Role.permissions r) (Command.userPermissions cmd))
        (Collection.values (Guild.roles guild))
  end.

(** The permission list of one remote command, entry by entry: for each
    allowed role an entry of kind Role that carries the id of that role and
    allows, then for each admin an entry of kind User that carries that
    user id and allows. *)
Definition expectedPermissions (client : ShewenyClient.t) (guild : Guild.t)
           (commandsCollection : Collection.t Command.t)
           (appCommand : ApplicationCommand.t)
  : GuildApplicationCommandPermissionData.t :=
  {| GuildApplicationCommandPermissionData.id := ApplicationCommand.id appCommand;
     GuildApplicationCommandPermissionData.permissions :=
       match Collection.get (ApplicationCommand.name appCommand) commandsCollection with
       | Some cmd =>
           map (fun role : Role.t =>
                  {| ApplicationCommandPermissionData.id := Role.id role;
                     ApplicationCommandPermissionData.type := ROLE;
                     ApplicationCommandPermissionData.permission := true |})
               (allowedRoles guild cmd)
       | None => []
       end
       ++ map (fun userId : Snowflake =>
                 {| ApplicationCommandPermissionData.id := userId;
                    ApplicationCommandPermissionData.type := USER_TARGET;
                    ApplicationCommandPermissionData.permission := true |})
              (ShewenyClient.admins client) |}.

(** The outcome of a call that awaits [o] and resolves to [a]. *)
Definition after {A B} (o : Outcome A) (a : B) : Outcome B :=
  match o with
  | Resolved _ => Resolved a
  | Rejected e => Rejected e
  | Pending => Pending
  end.

(** What importing the path [p] yields: the cached exports when there are
    some, the exports read from source otherwise. *)
Definition loaded {E} (ms : ModuleSystem.t E) (p : string) : option (option E) :=
  match Collection.get p (ModuleSystem.cache ms) with
  | Some exports => Some exports
  | None => Collection.get p (ModuleSystem.disk ms)
  end.

(** The module at [p] constructs the event instance [e], which declares
    the key [k]. *)
Definition declares (ms : ModuleSystem.t Event.t) (p k : string) (e : Event.t) : Prop :=
  loaded ms p = Some (Some e) /\ Event.name e = Some k /\ k <> EmptyString.

(** The events collection after the module at [evtPath], with the given
    exports, was visited. *)
Definition visited (exports : option (option Event.t)) (evtPath : string)
           (events : Collection.t Event.t) : Collection.t Event.t :=
  match exports with
  | Some (Some instance) =>
      match Event.name instance with
      | Some name =>
          if name =? EmptyString then events
          else Collection.set name (Event.with_path (Some evtPath) instance) events
      | None => events
      end
  | _ => events
  end.

(* ------------------------------------------------------------------ *)
(** * Sample data *)

Definition ping_data : CommandData.t :=
  {| CommandData.name := "ping";
     CommandData.description := Some "Replies with pong";
     CommandData.type := Some SLASH_COMMAND;
     CommandData.defaultPermission := Some true;
     CommandData.options := None;
     CommandData.args := None;
     CommandData.category := Some "Tests";
     CommandData.channel := None;
     CommandData.cooldown := Some 5%Z;
     CommandData.adminsOnly := None;
     CommandData.userPermissions := Some ["SEND_MESSAGES"];
     CommandData.clientPermissions := None;
     CommandData.aliases := None |}.

(** The same module after its command was renamed in the source. *)
Definition pong_data : CommandData.t :=
  {| CommandData.name := "pong";
     CommandData.description := Some "Replies with pong";
     CommandData.type := Some SLASH_COMMAND;
     CommandData.defaultPermission := Some true;
     CommandData.options := None;
     CommandData.args := None;
     CommandData.category := Some "Tests";
     CommandData.channel := None;
     CommandData.cooldown := Some 5%Z;
     CommandData.adminsOnly := None;
     CommandData.userPermissions := Some ["SEND_MESSAGES"];
     CommandData.clientPermissions := None;
     CommandData.aliases := None |}.

Definition report_data : CommandData.t :=
  {| CommandData.name := "report";
     CommandData.description := None;
     CommandData.type := Some CONTEXT_MENU_MESSAGE;
     CommandData.defaultPermission := None;
     CommandData.options := None;
     CommandData.args := None;
     CommandData.category := None;
     CommandData.channel := Some GUILD;
     CommandData.cooldown := None;
     CommandData.adminsOnly := None;
     CommandData.userPermissions := None;
     CommandData.clientPermissions := None;
     CommandData.aliases := None |}.

(** A message command: its data omits the type. *)
Definition say_data : CommandData.t :=
  {| CommandData.name := "say";
     CommandData.description := Some "Repeats a message";
     CommandData.type := None;
     CommandData.defaultPermission := None;
     CommandData.options := None;
     CommandData.args := Some ["text"];
     CommandData.category := None;
     CommandData.channel := None;
     CommandData.cooldown := None;
     CommandData.adminsOnly := None;
     CommandData.userPermissions := None;
     CommandData.clientPermissions := None;
     CommandData.aliases := Some ["echo"] |}.

Definition ping_path : string := "/bot/commands/ping.js".

Definition ping : Command.t :=
  Command.with_path (Some ping_path) (Command.constructor ping_data).
Definition report : Command.t :=
  Command.with_path (Some "/bot/commands/report.js") (Command.constructor report_data).
Definition say : Command.t :=
  Command.with_path (Some "/bot/commands/say.js") (Command.constructor say_data).

Definition sample_guild : Guild.t :=
  {| Guild.id := "1001";
     Guild.roles :=
       [ ("r1", {| Role.id := "r1";
                   Role.permissions := ["SEND_MESSAGES"; "MANAGE_MESSAGES"] |});
         ("r2", {| Role.id := "r2";
                   Role.permissions := ["VIEW_CHANNEL"] |}) ] |}.

Definition sample_client : ShewenyClient.t :=
  {| ShewenyClient.admins := ["42"; "43"];
     ShewenyClient.events := [];
     ShewenyClient.collections_commands := Some [("ping", ping)];
     ShewenyClient.application := Some [];
     ShewenyClient.guilds := [("1001", sample_guild)];
     ShewenyClient.ready_emitted := true |}.

(** A platform that registers what it is sent and accepts every
    permission table. *)
Definition sample_platform : Platform.t :=
  {| Platform.commands_set :=
       fun data _ =>
         Resolved
           (map (fun d =>
                   (ApplicationCommandData.name d,
                    {| ApplicationCommand.id := ApplicationCommandData.name d;
                       ApplicationCommand.name := ApplicationCommandData.name d |}))
                data);
     Platform.permissions_set := fun _ _ => Resolved tt |}.

(** A manager that registers globally, without permission
    synchronisation, and owns the collection [own]. *)
Definition global_manager (own : option (Collection.t Command.t))
  : CommandsManager.t :=
  {| CommandsManager.directory := "commands";
     CommandsManager.guildId := None;
     CommandsManager.prefix := Some "!";
     CommandsManager.applicationPermissions := Some false;
     CommandsManager.commands := own |}.

(** A manager bound to the guild 1001 with permission synchronisation. *)
Definition guild_manager : CommandsManager.t :=
  {| CommandsManager.directory := "commands";
     CommandsManager.guildId := Some "1001";
     CommandsManager.prefix := None;
     CommandsManager.applicationPermissions := Some true;
     CommandsManager.commands := Some [("ping", ping)] |}.

Definition ping_registered : ApplicationCommand.t :=
  {| ApplicationCommand.id := "9001"; ApplicationCommand.name := "ping" |}.

(** The process after the source of the ping module was edited to name
    its command pong: the module table still caches the exports loaded at
    startup, the client's collection still holds the ping command. *)
Definition renamed_world : CommandMethods.World :=
  {| Process.client := sample_client;
     Process.modules :=
       {| ModuleSystem.disk := [(ping_path, Some pong_data)];
          ModuleSystem.cache := [(ping_path, Some ping_data)] |} |}.

(** A process whose client has no command collection yet. *)
Definition bare_world : CommandMethods.World :=
  {| Process.client := ShewenyClient.with_commands None sample_client;
     Process.modules :=
       {| ModuleSystem.disk := [(ping_path, Some ping_data)];
          ModuleSystem.cache := [] |} |}.

(** An events directory with two modules for the ready event, the second
    one in a subdirectory, and one for the message event. *)
Definition events_tree : list EventsHandler.DirEntry :=
  [ EventsHandler.File "ready.js";
    EventsHandler.Directory "guild" [EventsHandler.File "ready.js"];
    EventsHandler.File "message.js" ].

Definition ready_top : Event.t :=
  {| Event.name := Some "ready"; Event.path := None; Event.execute := "log in" |}.
Definition ready_guild : Event.t :=
  {| Event.name := Some "ready"; Event.path := None; Event.execute := "greet guild" |}.
Definition message_event : Event.t :=
  {| Event.name := Some "message"; Event.path := None; Event.execute := "dispatch" |}.

Definition events_world : EventsHandler.World :=
  {| Process.client := sample_client;
     Process.modules :=
       {| ModuleSystem.disk :=
            [ ("/bot/events/ready.js", Some ready_top);
              ("/bot/events/guild/ready.js", Some ready_guild);
              ("/bot/events/message.js", Some message_event) ];
          ModuleSystem.cache := [] |} |}.

(* ------------------------------------------------------------------ *)
(** * CommandsManager: constructor, loading, single-command calls *)

Module CommandsManagerOptions.
Record t := {
  loadAll : option bool;
  guildId : option Snowflake;
  prefix : option string;
  applicationPermissions : option bool
}.
End CommandsManagerOptions.

(** An [ApplicationCommandResolvable], given by the id it resolves to. *)
Definition ApplicationCommandResolvable := Snowflake.

(** The calls of the single-command interface of the platform. *)
Inductive CommandCall :=
| Create (data : ApplicationCommandData.t) (guildId : option Snowflake)
| Edit (oldCommand : ApplicationCommandResolvable)
       (data : ApplicationCommandData.t) (guildId : option Snowflake)
| Delete (command : ApplicationCommandResolvable) (guildId : option Snowflake).

(** What the platform answers to them; opaque to this code. *)
Module CommandApi.
Record t := {
  create : ApplicationCommandData.t -> option Snowflake ->
           Outcome ApplicationCommand.t;
  edit : ApplicationCommandResolvable -> ApplicationCommandData.t ->
         option Snowflake -> Outcome ApplicationCommand.t;
  delete : ApplicationCommandResolvable -> option Snowflake ->
           Outcome (option ApplicationCommand.t)
}.
End CommandApi.

Module CommandsManagerExt.

(** [new CommandsManager(client, directory, options)], up to the point
    where the constructor returns: the manager as constructed.  With
    [options.loadAll] the constructor also starts [loadAndRegisterAll],
    which assigns [commands] only after the constructor has returned. *)
Definition constructor (client : option ShewenyClient.t) (directory : string)
           (options : option CommandsManagerOptions.t)
  : Outcome CommandsManager.t :=
  match client with
  | None => Rejected (TypeError "Client must be provided.")
  | Some _ =>
      if directory =? EmptyString
      then Rejected (TypeError "Directory must be provided.")
      else
        Resolved
          {| CommandsManager.directory := directory;
             CommandsManager.guildId :=
               match options with
               | Some o => CommandsManagerOptions.guildId o
               | None => None
               end;
             CommandsManager.prefix :=
               match options with
               | Some o => CommandsManagerOptions.prefix o
               | None => None
               end;
             CommandsManager.applicationPermissions :=
               Some (truthy_bool
                       match options with
                       | Some o => CommandsManagerOptions.applicationPermissions o
                       | None => None
                       end);
             CommandsManager.commands := None |}
  end.

Definition with_commands (cs : option (Collection.t Command.t))
           (m : CommandsManager.t) : CommandsManager.t :=
  {| CommandsManager.directory := CommandsManager.directory m;
     CommandsManager.guildId := CommandsManager.guildId m;
     CommandsManager.prefix := CommandsManager.prefix m;
     CommandsManager.applicationPermissions := CommandsManager.applicationPermissions m;
     CommandsManager.commands := cs |}.

(** [loadAll()].  [loadFiles] is not part of the sources: what it settles
    to is the parameter [loaded].  The state is the manager and the
    client. *)
Definition loadAll (loaded : Outcome (option (Collection.t Command.t)))
  : M (CommandsManager.t * ShewenyClient.t) (option (Collection.t Command.t)) :=
  commands <- lift loaded ;;
  s <- get_state ;;
  put_state (with_commands commands (fst s),
             ShewenyClient.with_commands commands (snd s)) ;;;
  ret commands.

(** [loadAndRegisterAll()]; the state is the manager, the client and the
    trace of remote calls. *)
Definition loadAndRegisterAll (platform : Platform.t)
           (loaded : Outcome (option (Collection.t Command.t)))
  : M (CommandsManager.t * ShewenyClient.t * Trace) unit :=
  fun s =>
    let '(m, client, trace) := s in
    match loadAll loaded (m, client) with
    | (Resolved commands, (m', client')) =>
        let (o, trace') :=
          CommandsManager.registerAllApplicationCommands m' client' platform
            commands None trace in
        (after o tt, (m', client', trace'))
    | (Rejected e, (m', client')) => (Rejected e, (m', client', trace))
    | (Pending, (m', client')) => (Pending, (m', client', trace))
    end.

(** [this.client.application?.commands.create(data, guildId)], or
    [.create(data)] when [scope] is [None]. *)
Definition application_commands_create (client : ShewenyClient.t)
           (api : CommandApi.t) (data : ApplicationCommandData.t)
           (scope : option Snowflake)
  : M (list CommandCall) (option ApplicationCommand.t) :=
  match ShewenyClient.application client with
  | None => ret None
  | Some _ =>
      fun calls =>
        (match CommandApi.create api data scope with
         | Resolved c => Resolved (Some c)
         | Rejected e => Rejected e
         | Pending => Pending
         end,
         calls ++ [Create data scope])
  end.

Definition application_commands_edit (client : ShewenyClient.t)
           (api : CommandApi.t) (oldCommand : ApplicationCommandResolvable)
           (data : ApplicationCommandData.t) (scope : option Snowflake)
  : M (list CommandCall) (option ApplicationCommand.t) :=
  match ShewenyClient.application client with
  | None => ret None
  | Some _ =>
      fun calls =>
        (match CommandApi.edit api oldCommand data scope with
         | Resolved c => Resolved (Some c)
         | Rejected e => Rejected e
         | Pending => Pending
         end,
         calls ++ [Edit oldCommand data scope])
  end.

Definition application_commands_delete (client : ShewenyClient.t)
           (api : CommandApi.t) (command : ApplicationCommandResolvable)
           (scope : option Snowflake)
  : M (list CommandCall) (option ApplicationCommand.t) :=
  match ShewenyClient.application client with
  | None => ret None
  | Some _ =>
      fun calls =>
        (CommandApi.delete api command scope, calls ++ [Delete command scope])
  end.

(** [createCommand(command, guildId?)].  [getData] applied to a command
    never yields an array. *)
Definition createCommand (m : CommandsManager.t) (client : ShewenyClient.t)
           (api : CommandApi.t) (command : option Command.t)
           (guildId : option Snowflake)
  : M (list CommandCall) (option ApplicationCommand.t) :=
  match command with
  | None => throw (Error "Command not found")
  | Some command =>
      data <- lift (CommandsManager.getData m
                      (Some (CommandsManager.OfCommand command))) ;;
      match data with
      | CommandsManager.DataOne data =>
          if truthy_string guildId
          then application_commands_create client api data guildId
          else application_commands_create client api data None
      | _ => ret None                         (* if (!data) return undefined *)
      end
  end.

(** [editCommand(oldCommand, newCommand, guildId?)]. *)
Definition editCommand (m : CommandsManager.t) (client : ShewenyClient.t)
           (api : CommandApi.t) (oldCommand : option ApplicationCommandResolvable)
           (newCommand : option Command.t) (guildId : option Snowflake)
  : M (list CommandCall) (option ApplicationCommand.t) :=
  if negb (truthy_string oldCommand) then throw (Error "Old Command not found")
  else
    match newCommand with
    | None => throw (Error "New Command not found")
    | Some newCommand =>
        data <- lift (CommandsManager.getData m
                        (Some (CommandsManager.OfCommand newCommand))) ;;
        match data with
        | CommandsManager.DataOne data =>
            if truthy_string guildId
            then application_commands_edit client api
                   (or_default oldCommand EmptyString) data guildId
            else application_commands_edit client api
                   (or_default oldCommand EmptyString) data None
        | _ => ret None
        end
    end.

(** [deleteCommand(command, guildId?)]. *)
Definition deleteCommand (client : ShewenyClient.t) (api : CommandApi.t)
           (command : option ApplicationCommandResolvable)
           (guildId : option Snowflake)
  : M (list CommandCall) (option ApplicationCommand.t) :=
  if negb (truthy_string command) then throw (Error "Command not found")
  else if truthy_string guildId
       then application_commands_delete client api
              (or_default command EmptyString) guildId
       else application_commands_delete client api
              (or_default command EmptyString) None.

(** [deleteAllCommands(guildId?)]: a bulk replace by the empty list. *)
Definition deleteAllCommands (client : ShewenyClient.t) (platform : Platform.t)
           (guildId : option Snowflake)
  : M Trace (option (Collection.t ApplicationCommand.t)) :=
  if truthy_string guildId
  then CommandsManager.application_commands_set client platform [] guildId
  else CommandsManager.application_commands_set client platform [] None.
End CommandsManagerExt.

(* ------------------------------------------------------------------ *)
(** * EventsHandler: constructor *)

Module EventsHandlerExt.
(** [new EventsHandler(client, dir)]: the client after construction. *)
Definition constructor (client : ShewenyClient.t) (dir : string)
  : Outcome ShewenyClient.t :=
  if dir =? EmptyString then Rejected (TypeError "Directory must be provided.")
  else Resolved (ShewenyClient.with_events Collection.empty client).
End EventsHandlerExt.

(* ------------------------------------------------------------------ *)
(** * Further notions used in the statements *)

(** The number of files below a directory. *)
Fixpoint filesIn (entry : EventsHandler.DirEntry) : nat :=
  match entry with
  | EventsHandler.File _ => 1
  | EventsHandler.Directory _ result =>
      fold_left (fun n entry' => n + filesIn entry') result 0
  end.

(** A permission table that only grants. *)
Definition grantsOnly (full : list GuildApplicationCommandPermissionData.t) : Prop :=
  forall entry, In entry full ->
  forall perm, In perm (GuildApplicationCommandPermissionData.permissions entry) ->
    ApplicationCommandPermissionData.permission perm = true.

(** A call that sets a permission table that only grants. *)
Definition grantingCall (call : RemoteCall) : Prop :=
  match call with
  | PermissionsSet _ full => grantsOnly full
  | CommandsSet _ _ => False
  end.

(** The remote calls of a permission synchronisation of one guild. *)
Definition guildCalls (m : CommandsManager.t) (client : ShewenyClient.t)
           (platform : Platform.t)
           (applicationCommands : Collection.t ApplicationCommand.t)
           (commandsCollection : Collection.t Command.t)
           (g : Snowflake) : Trace :=
  snd (CommandsManager.registerPermissions m client platform
         (Some applicationCommands) (Some commandsCollection)
         (Some (CommandsManager.OneGuild g)) []).

(** What the scan of [EventsHandler.registerAll] stores: instances keyed
    by their own name, with the path of a traversed module recorded. *)
Definition scanned (evtsPaths : list string) (events : Collection.t Event.t) : Prop :=
  forall k e, In (k, e) events ->
    Event.name e = Some k /\ k <> EmptyString /\
    exists p, In p evtsPaths /\ Event.path e = Some p.

(** A platform interface for single commands that registers what it is
    sent. *)
Definition sample_api : CommandApi.t :=
  {| CommandApi.create :=
       fun d _ =>
         Resolved {| ApplicationCommand.id := ApplicationCommandData.name d;
                     ApplicationCommand.name := ApplicationCommandData.name d |};
     CommandApi.edit :=
       fun old d _ =>
         Resolved {| ApplicationCommand.id := old;
                     ApplicationCommand.name := ApplicationCommandData.name d |};
     CommandApi.delete := fun _ _ => Resolved None |}.

(* ================================================================== *)
(** * Properties *)

Unset Implicit Arguments.

(* ------------------------------------------------------------------ *)
(** ** Collections *)

Section CollectionFacts.
Variable V : Type.
Implicit Types (c : Collection.t V) (k : string) (v : V).

Lemma get_set_same k v c : Collection.get k (Collection.set k v c) = Some v.
Proof.
  induction c as [|[k' v'] r IH]; simpl.
  - now rewrite String.eqb_refl.
  - destruct (k =? k') eqn:E; simpl.
    + now rewrite String.eqb_refl.
    + now rewrite E.
Qed.

Lemma get_set_other k k' v c :
  k' <> k -> Collection.get k' (Collection.set k v c) = Collection.get k' c.
Proof.
  intros Hne. induction c as [|[k0 v0] r IH]; simpl.
  - destruct (k' =? k) eqn:E; [apply String.eqb_eq in E; contradiction | reflexivity].
  - destruct (k =? k0) eqn:E; simpl.
    + apply String.eqb_eq in E; subst k0.
      destruct (k' =? k) eqn:E'; [apply String.eqb_eq in E'; contradiction | reflexivity].
    + destruct (k' =? k0); [reflexivity | exact IH].
Qed.

Lemma get_delete_same k c : Collection.get k (Collection.delete k c) = None.
Proof.
  induction c as [|[k' v'] r IH]; simpl; [reflexivity|].
  destruct (k =? k') eqn:E; simpl; [exact IH | now rewrite E].
Qed.

Lemma get_delete_other k k' c :
  k' <> k -> Collection.get k' (Collection.delete k c) = Collection.get k' c.
Proof.
  intros Hne. induction c as [|[k0 v0] r IH]; simpl; [reflexivity|].
  destruct (k =? k0) eqn:E; simpl.
  - apply String.eqb_eq in E; subst k0.
    destruct (k' =? k) eqn:E'; [apply String.eqb_eq in E'; contradiction | exact IH].
  - destruct (k' =? k0); [reflexivity | exact IH].
Qed.

Lemma get_None_not_key k c :
  Collection.get k c = None <-> ~ In k (Collection.keys c).
Proof.
  induction c as [|[k' v'] r IH]; simpl.
  - tauto.
  - destruct (k =? k') eqn:E.
    + apply String.eqb_eq in E; subst. split; [discriminate | intros H; exfalso; apply H; now left].
    + apply String.eqb_neq in E. rewrite IH. split.
      * intros H [H'|H']; [congruence | contradiction].
      * intros H H'. apply H. now right.
Qed.

Lemma delete_absent k c :
  Collection.get k c = None -> Collection.delete k c = c.
Proof.
  induction c as [|[k' v'] r IH]; simpl; [reflexivity|].
  destruct (k =? k') eqn:E; [discriminate|]. intros H. simpl. now rewrite IH.
Qed.

Lemma keys_set_present k v c :
  In k (Collection.keys c) -> Collection.keys (Collection.set k v c) = Collection.keys c.
Proof.
  induction c as [|[k' v'] r IH]; simpl; [tauto|].
  destruct (k =? k') eqn:E; simpl.
  - apply String.eqb_eq in E. now subst.
  - apply String.eqb_neq in E. intros [H|H]; [congruence | now rewrite IH].
Qed.

Lemma keys_set_absent k v c :
  ~ In k (Collection.keys c) ->
  Collection.keys (Collection.set k v c) = Collection.keys c ++ [k].
Proof.
  induction c as [|[k' v'] r IH]; simpl; [reflexivity|].
  intros H. destruct (k =? k') eqn:E; simpl.
  - apply String.eqb_eq in E. exfalso. apply H. now left.
  - rewrite IH; [reflexivity | intros H'; apply H; now right].
Qed.

Lemma wf_set k v c : Collection.wf c -> Collection.wf (Collection.set k v c).
Proof.
  unfold Collection.wf. intros Hwf.
  destruct (in_dec string_dec k (Collection.keys c)) as [Hin|Hout].
  - now rewrite keys_set_present.
  - rewrite keys_set_absent by assumption.
    apply NoDup_app; [assumption | repeat constructor; simpl; tauto |].
    intros x Hx [Hk|[]]. subst. contradiction.
Qed.


(** In a well-formed collection a key has at most one entry. *)
Lemma wf_entries_of_key k v c :
  Collection.wf c -> Collection.get k c = Some v ->
  List.filter (fun e => k =? fst e) c = [(k, v)].
Proof.
  unfold Collection.wf. induction c as [|[k' v'] r IH]; simpl; [discriminate|].
  intros Hwf. inversion Hwf as [|? ? Hnotin Hnd]; subst.
  destruct (k =? k') eqn:E.
  - apply String.eqb_eq in E; subst k'. intros [= ->]. f_equal.
    clear IH Hwf Hnd. induction r as [|[k0 v0] r IH]; simpl; [reflexivity|].
    simpl in Hnotin. destruct (k =? k0) eqn:E.
    + apply String.eqb_eq in E. exfalso. apply Hnotin. now left.
    + apply IH. intros H. apply Hnotin. now right.
  - intros H. now apply IH.
Qed.
End CollectionFacts.

(* ------------------------------------------------------------------ *)
(** ** Command.constructor and CommandsManager.getData *)

Lemma CommandType_eqb_eq a b : CommandType_eqb a b = true <-> a = b.
Proof. destruct a, b; simpl; split; congruence. Qed.

Lemma isMessageCommand_false cmd :
  isMessageCommand cmd = false <-> Command.type cmd <> MESSAGE_COMMAND.
Proof.
  unfold isMessageCommand. destruct (Command.type cmd); simpl; split; congruence.
Qed.

Lemma permissionsForcedOff_iff m cmd :
  CommandsManager.permissionsForcedOff m cmd = true <-> permissionsRestricted m cmd.
Proof.
  unfold CommandsManager.permissionsForcedOff, permissionsRestricted.
  rewrite !andb_true_iff. split.
  - intros [[Ha Hg] Hu]. repeat split.
    + destruct (CommandsManager.applicationPermissions m) as [[]|]; simpl in Ha; congruence.
    + destruct (CommandsManager.guildId m) as [g|]; simpl in Hg; [|discriminate].
      exists g. split; [reflexivity|]. intros ->. discriminate.
    + intros E. rewrite E in Hu. discriminate.
  - intros (Ha & (g & Hg & Hne) & Hu). rewrite Ha, Hg. simpl. repeat split.
    + apply negb_true_iff. now apply String.eqb_neq.
    + destruct (Command.userPermissions cmd); [contradiction | reflexivity].
Qed.

(** The loop body pushes exactly what the single-command branch returns. *)
Lemma getData_step_projected m data cmd :
  CommandsManager.getData_step m data cmd = data ++ projected m cmd.
Proof.
  unfold CommandsManager.getData_step, projected, CommandsManager.getData_command.
  destruct (Command.type cmd); simpl; now rewrite ?app_nil_r.
Qed.

Lemma getData_loop_flat_map m cmds data :
  fold_left (CommandsManager.getData_step m) cmds data
  = data ++ flat_map (projected m) cmds.
Proof.
  revert data. induction cmds as [|c r IH]; intros data; simpl.
  - now rewrite app_nil_r.
  - now rewrite IH, getData_step_projected, <- app_assoc.
Qed.

Lemma getData_collection_flat_map m cs :
  CommandsManager.getData_collection m cs
  = flat_map (projected m) (Collection.values cs).
Proof. unfold CommandsManager.getData_collection. now rewrite getData_loop_flat_map. Qed.

Lemma projected_message m cmd :
  isMessageCommand cmd = true -> projected m cmd = [].
Proof.
  unfold isMessageCommand, projected, CommandsManager.getData_command.
  now intros ->.
Qed.

Lemma projected_registrable m cmd :
  isMessageCommand cmd = false -> exists d, projected m cmd = [d].
Proof.
  unfold isMessageCommand, projected, CommandsManager.getData_command.
  destruct (Command.type cmd); simpl; try discriminate; eauto.
Qed.

(** C9: the constructor fills the omitted fields of its data with the
    defaults -- type MESSAGE_COMMAND, cooldown 0, empty userPermissions and
    clientPermissions, adminsOnly false -- and leaves defaultPermission
    undefined unless the type is SLASH_COMMAND, CONTEXT_MENU_USER or
    CONTEXT_MENU_MESSAGE; a command built without a type has no projection,
    neither alone nor inside a collection. *)
Theorem constructor_defaults (data : CommandData.t) :
  let c := Command.constructor data in
  (CommandData.type data = None -> Command.type c = MESSAGE_COMMAND) /\
  (CommandData.cooldown data = None -> Command.cooldown c = 0%Z) /\
  (CommandData.userPermissions data = None -> Command.userPermissions c = []) /\
  (CommandData.clientPermissions data = None -> Command.clientPermissions c = []) /\
  (CommandData.adminsOnly data = None -> Command.adminsOnly c = false) /\
  (Command.defaultPermission c <> None ->
   Command.type c = SLASH_COMMAND \/ Command.type c = CONTEXT_MENU_USER \/
   Command.type c = CONTEXT_MENU_MESSAGE) /\
  (CommandData.type data = None ->
   forall m : CommandsManager.t,
     CommandsManager.getData m (Some (CommandsManager.OfCommand c))
     = Resolved CommandsManager.DataUndefined /\
     (forall acc, CommandsManager.getData_step m acc c = acc) /\
     (forall key cs,
        CommandsManager.getData_collection m (cs ++ [(key, c)])
        = CommandsManager.getData_collection m cs)).
Proof.
  unfold Command.constructor; simpl. repeat split.
  - now intros ->.
  - now intros ->.
  - now intros ->.
  - now intros ->.
  - now intros ->.
  - destruct (or_default (CommandData.type data) MESSAGE_COMMAND); simpl; tauto.
  - unfold CommandsManager.getData, CommandsManager.getData_command; simpl.
    now rewrite H.
  - intros acc. unfold CommandsManager.getData_step; simpl. now rewrite H.
  - intros key cs. rewrite !getData_collection_flat_map.
    unfold Collection.values. rewrite map_app, flat_map_app. simpl.
    rewrite projected_message; [now rewrite !app_nil_r|].
    unfold isMessageCommand; simpl. now rewrite H.
Qed.

(** C4: getData yields nothing for a MessageCommand: undefined for a single
    definition; and in the projection of a collection every entry is the
    projection of a definition of another type, one entry for each such
    definition, so that dropping the MessageCommand definitions from the
    collection leaves the projection unchanged. *)
Theorem getData_skips_message_commands (m : CommandsManager.t) :
  (forall cmd, Command.type cmd = MESSAGE_COMMAND ->
     CommandsManager.getData m (Some (CommandsManager.OfCommand cmd))
     = Resolved CommandsManager.DataUndefined) /\
  (forall cs d, In d (CommandsManager.getData_collection m cs) ->
     exists cmd, In cmd (Collection.values cs) /\
                 Command.type cmd <> MESSAGE_COMMAND /\
                 CommandsManager.getData_command m cmd = Some d) /\
  (forall cs,
     length (CommandsManager.getData_collection m cs)
     = length (List.filter (fun cmd => negb (isMessageCommand cmd))
                           (Collection.values cs))) /\
  (forall cs,
     CommandsManager.getData_collection m cs
     = CommandsManager.getData_collection m
         (Collection.filter (fun cmd => negb (isMessageCommand cmd)) cs)).
Proof.
  repeat split.
  - intros cmd H. unfold CommandsManager.getData, CommandsManager.getData_command.
    simpl. now rewrite H.
  - intros cs d. rewrite getData_collection_flat_map, in_flat_map.
    intros (cmd & Hin & Hd). exists cmd. split; [assumption|].
    unfold projected in Hd.
    destruct (CommandsManager.getData_command m cmd) as [d'|] eqn:E; [|contradiction].
    destruct Hd as [->|[]]. split; [|reflexivity].
    intros Hty. unfold CommandsManager.getData_command in E.
    rewrite Hty in E. discriminate.
  - intros cs. rewrite getData_collection_flat_map.
    induction (Collection.values cs) as [|c r IH]; simpl; [reflexivity|].
    rewrite length_app, IH.
    destruct (isMessageCommand c) eqn:E; simpl.
    + now rewrite projected_message.
    + destruct (projected_registrable m c E) as [d ->]. reflexivity.
  - intros cs. rewrite !getData_collection_flat_map.
    unfold Collection.filter, Collection.values.
    induction cs as [|[k c] r IH]; simpl; [reflexivity|].
    destruct (isMessageCommand c) eqn:E; simpl.
    + now rewrite projected_message.
    + now rewrite IH.
Qed.

(** C2: for a command of a remotely registrable type getData returns a
    projection, the same one the loop over a collection pushes, and its
    defaultPermission is false when applicationPermissions is enabled, a
    guild id is set and userPermissions is non-empty, and the declared
    defaultPermission otherwise; it departs from the declared value in
    that case only. *)
Theorem getData_defaultPermission (m : CommandsManager.t) (cmd : Command.t)
  (Hty : Command.type cmd <> MESSAGE_COMMAND) :
  exists d,
    CommandsManager.getData m (Some (CommandsManager.OfCommand cmd))
    = Resolved (CommandsManager.DataOne d) /\
    (forall data, CommandsManager.getData_step m data cmd = data ++ [d]) /\
    (permissionsRestricted m cmd ->
     ApplicationCommandData.defaultPermission d = Some false) /\
    (~ permissionsRestricted m cmd ->
     ApplicationCommandData.defaultPermission d = Command.defaultPermission cmd) /\
    (ApplicationCommandData.defaultPermission d <> Command.defaultPermission cmd ->
     permissionsRestricted m cmd).
Proof.
  apply isMessageCommand_false in Hty.
  destruct (projected_registrable m cmd Hty) as [d Hd].
  exists d. unfold projected in Hd.
  destruct (CommandsManager.getData_command m cmd) as [d'|] eqn:E; [|discriminate].
  injection Hd as ->.
  assert (Hdp : ApplicationCommandData.defaultPermission d
                = if CommandsManager.permissionsForcedOff m cmd then Some false
                  else Command.defaultPermission cmd).
  { unfold CommandsManager.getData_command in E.
    destruct (Command.type cmd); simpl in E; try discriminate;
      injection E as <-; reflexivity. }
  split; [|split; [|split; [|split]]].
  - unfold CommandsManager.getData. simpl. now rewrite E.
  - intros data. rewrite getData_step_projected. unfold projected. now rewrite E.
  - intros Hr. apply permissionsForcedOff_iff in Hr. now rewrite Hdp, Hr.
  - intros Hr. rewrite Hdp.
    destruct (CommandsManager.permissionsForcedOff m cmd) eqn:Eb; [|reflexivity].
    exfalso. apply Hr. now apply permissionsForcedOff_iff.
  - intros Hne. apply permissionsForcedOff_iff.
    destruct (CommandsManager.permissionsForcedOff m cmd); [reflexivity|].
    now rewrite Hdp in Hne.
Qed.

(** The ping command, which requires SEND_MESSAGES, under a manager bound
    to a guild with permission synchronisation. *)
Lemma getData_defaultPermission_witness :
  Command.type ping <> MESSAGE_COMMAND /\
  exists d,
    CommandsManager.getData guild_manager (Some (CommandsManager.OfCommand ping))
    = Resolved (CommandsManager.DataOne d) /\
    (forall data, CommandsManager.getData_step guild_manager data ping = data ++ [d]) /\
    (permissionsRestricted guild_manager ping ->
     ApplicationCommandData.defaultPermission d = Some false) /\
    (~ permissionsRestricted guild_manager ping ->
     ApplicationCommandData.defaultPermission d = Command.defaultPermission ping) /\
    (ApplicationCommandData.defaultPermission d <> Command.defaultPermission ping ->
     permissionsRestricted guild_manager ping).
Proof.
  assert (H : Command.type ping <> MESSAGE_COMMAND) by discriminate.
  split; [exact H | exact (getData_defaultPermission guild_manager ping H)].
Defined.

(* ------------------------------------------------------------------ *)
(** ** CommandsManager.registerPermissions *)

Lemma Permissions_has_incl granted required :
  Permissions_has granted required = true <-> incl required granted.
Proof.
  unfold Permissions_has, incl. rewrite forallb_forall.
  split; intros H p Hp.
  - specialize (H p Hp). apply existsb_exists in H.
    destruct H as (q & Hq & E). apply String.eqb_eq in E. now subst.
  - apply existsb_exists. exists p. split; [now apply H | apply String.eqb_refl].
Qed.

Lemma push_loop_map {A B} (f : A -> B) (l : list A) (acc : list B) :
  fold_left (fun acc x => acc ++ [f x]) l acc = acc ++ map f l.
Proof.
  revert acc. induction l as [|x r IH]; intros acc; simpl.
  - now rewrite app_nil_r.
  - now rewrite IH, <- app_assoc.
Qed.

Lemma push_admins client (acc : list ApplicationCommandPermissionData.t) :
  (if (0 <? length (ShewenyClient.admins client))%nat
   then fold_left (fun acc userId => acc ++ [CommandsManager.userEntry userId])
                  (ShewenyClient.admins client) acc
   else acc)
  = acc ++ map CommandsManager.userEntry (ShewenyClient.admins client).
Proof.
  destruct (ShewenyClient.admins client) as [|a r].
  - simpl. now rewrite app_nil_r.
  - change (0 <? length (a :: r))%nat with true. cbv iota. apply push_loop_map.
Qed.

Lemma buildPermissions_none client :
  CommandsManager.buildPermissions client None
  = map CommandsManager.userEntry (ShewenyClient.admins client).
Proof. unfold CommandsManager.buildPermissions. now rewrite push_admins. Qed.

Lemma values_filter {V} (p : V -> bool) (c : Collection.t V) :
  Collection.values (Collection.filter p c) = List.filter p (Collection.values c).
Proof.
  unfold Collection.values, Collection.filter.
  induction c as [|[k v] r IH]; [reflexivity|].
  cbn [List.filter map snd]. destruct (p v); cbn [map snd]; now rewrite IH.
Qed.

Lemma buildPermissions_some client (roles : Collection.t Role.t) :
  CommandsManager.buildPermissions client (Some roles)
  = map CommandsManager.roleEntry (Collection.values roles)
    ++ map CommandsManager.userEntry (ShewenyClient.admins client).
Proof.
  unfold CommandsManager.buildPermissions. rewrite push_admins. f_equal.
  destruct roles as [|e es]; [reflexivity|].
  change (0 <? Collection.size (e :: es))%nat with true. cbv iota.
  now rewrite push_loop_map.
Qed.

Lemma getRoles_spec guild cmd :
  exists roles,
    CommandsManager.getRoles (Some guild) (Some cmd) = Resolved roles /\
    forall client,
      CommandsManager.buildPermissions client roles
      = map CommandsManager.roleEntry (allowedRoles guild cmd)
        ++ map CommandsManager.userEntry (ShewenyClient.admins client).
Proof.
  unfold CommandsManager.getRoles, allowedRoles.
  destruct (Command.userPermissions cmd) as [|u us].
  - exists None. split; [reflexivity|]. intros client. apply buildPermissions_none.
  - change (length (u :: us) =? 0)%nat with false. cbv iota.
    eexists. split; [reflexivity|]. intros client.
    unfold option_map. now rewrite buildPermissions_some, values_filter.
Qed.

Lemma buildFullPermissions_spec client guild coll apps acc :
  (forall a, In a apps ->
     Collection.get (ApplicationCommand.name a) coll <> None) ->
  CommandsManager.buildFullPermissions client (Some guild) coll apps acc
  = Resolved (acc ++ map (expectedPermissions client guild coll) apps).
Proof.
  revert acc. induction apps as [|a r IH]; intros acc Hmatch; simpl.
  - now rewrite app_nil_r.
  - destruct (Collection.get (ApplicationCommand.name a) coll) as [cmd|] eqn:Ec.
    + destruct (getRoles_spec guild cmd) as (roles & Hroles & Hperm).
      rewrite Hroles. rewrite IH by (intros; apply Hmatch; now right).
      rewrite <- app_assoc. simpl. do 3 f_equal.
      unfold expectedPermissions. rewrite Ec. f_equal.
      apply Hperm.
    + exfalso. apply (Hmatch a); [now left | assumption].
Qed.

(** C3: for one guild known to the client, and remote commands that each
    have a local command of their name, registerPermissions submits in a
    single call for that guild one entry per remote command, whose
    permission list is a Role entry with allow = true for each guild role
    whose granted permissions include all the userPermissions of the local
    command (none when that list is empty), followed by a User entry with
    allow = true for each admin id, whatever the roles. *)
Theorem registerPermissions_single_guild
  (m : CommandsManager.t) (client : ShewenyClient.t) (platform : Platform.t)
  (applicationCommands : Collection.t ApplicationCommand.t)
  (commandsCollection : Collection.t Command.t)
  (guildId : Snowflake) (guild : Guild.t) (trace : Trace)
  (applicationCommandsArg : option (Collection.t ApplicationCommand.t))
  (commandsCollectionArg : option (Collection.t Command.t))
  (guildIdArg : option CommandsManager.GuildIdArg)
  (Happs : default_param applicationCommandsArg (ShewenyClient.application client)
           = Some applicationCommands)
  (Hcoll : default_param commandsCollectionArg (CommandsManager.commands m)
           = Some commandsCollection)
  (Hgid : default_param guildIdArg
            (option_map CommandsManager.OneGuild (CommandsManager.guildId m))
          = Some (CommandsManager.OneGuild guildId))
  (Hid : guildId <> EmptyString)
  (Hguild : Collection.get guildId (ShewenyClient.guilds client) = Some guild)
  (Hmatch : forall a, In a (Collection.values applicationCommands) ->
              Collection.get (ApplicationCommand.name a) commandsCollection <> None) :
  let fullPermissions :=
    map (expectedPermissions client guild commandsCollection)
        (Collection.values applicationCommands) in
  CommandsManager.registerPermissions m client platform
    applicationCommandsArg commandsCollectionArg guildIdArg trace
  = (after (Platform.permissions_set platform (Guild.id guild) fullPermissions) None,
     trace ++ [PermissionsSet (Guild.id guild) fullPermissions]).
Proof.
  intros fullPermissions.
  unfold CommandsManager.registerPermissions. rewrite Happs, Hcoll, Hgid.
  unfold bind, CommandsManager.registerPermissions_guild.
  apply String.eqb_neq in Hid. simpl. rewrite Hid. simpl.
  rewrite Hguild. unfold bind, lift.
  rewrite buildFullPermissions_spec by assumption. simpl.
  fold fullPermissions.
  destruct (Platform.permissions_set platform (Guild.id guild) fullPermissions);
    reflexivity.
Qed.

(** The permission table of the sample guild for the registered ping
    command: the role r1, whose permissions include SEND_MESSAGES, and both
    admins; the role r2 is left out. *)
Lemma registerPermissions_single_guild_witness :
  CommandsManager.registerPermissions guild_manager sample_client sample_platform
    (Some [("9001", ping_registered)]) None None []
  = (Resolved None,
     [PermissionsSet "1001"
        [ {| GuildApplicationCommandPermissionData.id := "9001";
             GuildApplicationCommandPermissionData.permissions :=
               [ {| ApplicationCommandPermissionData.id := "r1";
                    ApplicationCommandPermissionData.type := ROLE;
                    ApplicationCommandPermissionData.permission := true |};
                 {| ApplicationCommandPermissionData.id := "42";
                    ApplicationCommandPermissionData.type := USER_TARGET;
                    ApplicationCommandPermissionData.permission := true |};
                 {| ApplicationCommandPermissionData.id := "43";
                    ApplicationCommandPermissionData.type := USER_TARGET;
                    ApplicationCommandPermissionData.permission := true |} ] |} ]]).
Proof.
  apply (@registerPermissions_single_guild guild_manager sample_client
           sample_platform [("9001", ping_registered)] [("ping", ping)]
           "1001" sample_guild []
           (Some [("9001", ping_registered)]) None None).
  - reflexivity.
  - reflexivity.
  - reflexivity.
  - discriminate.
  - reflexivity.
  - intros a [<-|[]]. simpl. discriminate.
Defined.

(* ------------------------------------------------------------------ *)
(** ** CommandsManager.registerAllApplicationCommands *)

Lemma registerPermissions_guild_extends client platform apps coll g trace :
  exists rest,
    snd (CommandsManager.registerPermissions_guild client platform apps coll g trace)
    = trace ++ rest.
Proof.
  unfold CommandsManager.registerPermissions_guild.
  destruct (negb (truthy_string (Some g))).
  - exists []. simpl. now rewrite app_nil_r.
  - unfold bind, lift.
    destruct (CommandsManager.buildFullPermissions _ _ _ _ _) as [full|e|];
      try (exists []; simpl; now rewrite app_nil_r).
    destruct (Collection.get g (ShewenyClient.guilds client)).
    + eexists. reflexivity.
    + exists []. simpl. now rewrite app_nil_r.
Qed.

Lemma registerPermissions_every_extends client platform apps coll gs trace :
  exists rest,
    snd (CommandsManager.registerPermissions_every client platform apps coll gs trace)
    = trace ++ rest.
Proof.
  revert trace. induction gs as [|g r IH]; intros trace; simpl.
  - exists []. now rewrite app_nil_r.
  - destruct (registerPermissions_guild_extends client platform apps coll g trace)
      as [rest1 H1].
    destruct (CommandsManager.registerPermissions_guild _ _ _ _ g trace) as [o t1].
    simpl in H1. subst t1.
    destruct (IH (trace ++ rest1)) as [rest2 H2].
    exists (rest1 ++ rest2). now rewrite H2, app_assoc.
Qed.

Lemma registerPermissions_extends m client platform a c g trace :
  exists rest,
    snd (CommandsManager.registerPermissions m client platform a c g trace)
    = trace ++ rest.
Proof.
  unfold CommandsManager.registerPermissions.
  destruct (default_param a _) as [apps|];
    [|exists []; simpl; now rewrite app_nil_r].
  destruct (default_param c _) as [coll|];
    [|exists []; simpl; now rewrite app_nil_r].
  destruct (default_param g _) as [[gid|gs]|];
    [| |exists []; simpl; now rewrite app_nil_r]; unfold bind.
  - destruct (registerPermissions_guild_extends client platform apps coll gid trace)
      as [rest H].
    destruct (CommandsManager.registerPermissions_guild _ _ _ _ gid trace) as [[] t1];
      simpl in *; eauto.
  - destruct (registerPermissions_every_extends client platform apps coll gs trace)
      as [rest H].
    destruct (CommandsManager.registerPermissions_every _ _ _ _ gs trace) as [[] t1];
      simpl in *; eauto.
Qed.

(** What the code does: once the collection argument is defined, the bulk
    replace carries the projection of the manager's own collection. *)
Lemma registerAll_submits_own_projection
  (m : CommandsManager.t) (client : ShewenyClient.t) (platform : Platform.t)
  (commandsArg : option (Collection.t Command.t)) (guildIdArg : option Snowflake)
  (own : Collection.t Command.t) (trace : Trace) :
  default_param commandsArg (CommandsManager.commands m) <> None ->
  CommandsManager.commands m = Some own ->
  ShewenyClient.ready_emitted client = true ->
  ShewenyClient.application client <> None ->
  CommandsManager.getData_collection m own <> [] ->
  exists rest,
    snd (CommandsManager.registerAllApplicationCommands m client platform
           commandsArg guildIdArg trace)
    = trace
      ++ CommandsSet (CommandsManager.getData_collection m own)
                     (scopeOf (default_param guildIdArg (CommandsManager.guildId m)))
      :: rest.
Proof.
  intros Harg Hown Hready Happ Hdata.
  unfold CommandsManager.registerAllApplicationCommands.
  destruct (default_param commandsArg (CommandsManager.commands m)); [|contradiction].
  unfold bind at 1. unfold lift, CommandsManager.getData, default_param at 1.
  rewrite Hown. cbn [option_map].
  unfold bind at 1. unfold ShewenyClient.awaitReady. rewrite Hready.
  unfold ret at 1.
  destruct (CommandsManager.getData_collection m own) as [|d ds] eqn:Ed; [contradiction|].
  change (0 <? length (d :: ds))%nat with true. cbv iota.
  set (scope := default_param guildIdArg (CommandsManager.guildId m)).
  assert (Hset :
    (if truthy_string scope
     then CommandsManager.application_commands_set client platform (d :: ds) scope
     else CommandsManager.application_commands_set client platform (d :: ds) None)
    = CommandsManager.application_commands_set client platform (d :: ds) (scopeOf scope)).
  { unfold scopeOf. now destruct (truthy_string scope). }
  rewrite Hset. unfold bind at 1.
  unfold CommandsManager.application_commands_set.
  destruct (ShewenyClient.application client) as [cache|]; [|contradiction].
  destruct (Platform.commands_set platform (d :: ds) (scopeOf scope)) as [cmds|e|];
    try (exists []; reflexivity).
  unfold bind at 1.
  destruct (truthy_bool (CommandsManager.applicationPermissions m)).
  - destruct (registerPermissions_extends m client platform (Some cmds) None None
                (trace ++ [CommandsSet (d :: ds) (scopeOf scope)])) as [rest H].
    destruct (CommandsManager.registerPermissions _ _ _ _ _ _ _) as [[] t1];
      simpl in *; subst t1; exists rest; now rewrite <- app_assoc.
  - exists []. reflexivity.
Qed.

(** The same for an empty projection of the manager's own collection:
    nothing is sent and the result is undefined. *)
Lemma registerAll_own_projection_empty
  (m : CommandsManager.t) (client : ShewenyClient.t) (platform : Platform.t)
  (commandsArg : option (Collection.t Command.t)) (guildIdArg : option Snowflake)
  (own : Collection.t Command.t) (trace : Trace) :
  default_param commandsArg (CommandsManager.commands m) <> None ->
  CommandsManager.commands m = Some own ->
  ShewenyClient.ready_emitted client = true ->
  CommandsManager.getData_collection m own = [] ->
  CommandsManager.registerAllApplicationCommands m client platform
    commandsArg guildIdArg trace
  = (Resolved None, trace).
Proof.
  intros Harg Hown Hready Hdata.
  unfold CommandsManager.registerAllApplicationCommands.
  destruct (default_param commandsArg (CommandsManager.commands m)); [|contradiction].
  unfold bind, lift, CommandsManager.getData, default_param at 1.
  rewrite Hown. cbn [option_map].
  unfold ShewenyClient.awaitReady. rewrite Hready. unfold ret.
  now rewrite Hdata.
Qed.

(** The call throws when the collection is undefined. *)
Lemma registerAll_undefined_collection m client platform guildIdArg trace :
  CommandsManager.commands m = None ->
  CommandsManager.registerAllApplicationCommands m client platform
    None guildIdArg trace
  = (Rejected (Error "Commands not found"), trace).
Proof.
  intros H. unfold CommandsManager.registerAllApplicationCommands, default_param.
  now rewrite H.
Qed.

(** C1, at an input where the claim fails: the manager owns the ping
    command and is handed a collection holding only the report command.
    The projection of the passed collection is the report entry, yet the
    bulk replace carries the ping entry. *)
Theorem registerAll_ignores_passed_collection :
  let m := global_manager (Some [("ping", ping)]) in
  let passed := [("report", report)] in
  CommandsManager.getData_collection m passed
  = [ {| ApplicationCommandData.type := MESSAGE;
         ApplicationCommandData.name := "report";
         ApplicationCommandData.description := None;
         ApplicationCommandData.options := None;
         ApplicationCommandData.defaultPermission := None |} ] /\
  snd (CommandsManager.registerAllApplicationCommands m sample_client
         sample_platform (Some passed) None [])
  = [ CommandsSet
        [ {| ApplicationCommandData.type := CHAT_INPUT;
             ApplicationCommandData.name := "ping";
             ApplicationCommandData.description := Some "Replies with pong";
             ApplicationCommandData.options := None;
             ApplicationCommandData.defaultPermission := Some true |} ]
        None ].
Proof. split; reflexivity. Qed.

(** C5, at an input where the claim fails: the manager owns the ping
    command and is handed a collection holding only a message command.
    The projection of the passed collection is empty, yet a bulk replace
    is issued and the registered commands are returned. *)
Theorem registerAll_empty_passed_collection_still_sends :
  let m := global_manager (Some [("ping", ping)]) in
  let passed := [("say", say)] in
  CommandsManager.getData_collection m passed = [] /\
  CommandsManager.registerAllApplicationCommands m sample_client
    sample_platform (Some passed) None []
  = (Resolved (Some [("ping", {| ApplicationCommand.id := "ping";
                                 ApplicationCommand.name := "ping" |})]),
     [ CommandsSet (CommandsManager.getData_collection m [("ping", ping)]) None ]).
Proof. split; reflexivity. Qed.

(* ------------------------------------------------------------------ *)
(** ** Command.unregister, Command.register, Command.reload *)

Lemma with_commands_id client :
  ShewenyClient.with_commands (ShewenyClient.collections_commands client) client
  = client.
Proof. now destruct client. Qed.

Lemma unregister_eval (this : Command.t) (w : CommandMethods.World) p :
  Command.path this = Some p ->
  Collection.get p (ModuleSystem.disk (Process.modules w)) <> None ->
  CommandMethods.unregister this w
  = (Resolved true,
     {| Process.client :=
          ShewenyClient.with_commands
            (option_map (Collection.delete (Command.name this))
               (ShewenyClient.collections_commands (Process.client w)))
            (Process.client w);
        Process.modules := ModuleSystem.invalidate p (Process.modules w) |}).
Proof.
  intros Hp Hres.
  unfold CommandMethods.unregister, bind, Process.modify_client, Process.resolve,
    Process.modify_modules, ModuleSystem.resolve, ret.
  cbn [Process.client Process.modules]. rewrite Hp.
  destruct (Collection.get p (ModuleSystem.disk (Process.modules w))); [|contradiction].
  do 2 f_equal.
  destruct (ShewenyClient.collections_commands (Process.client w)) eqn:E;
    cbn [option_map]; [reflexivity|].
  now rewrite <- E, with_commands_id.
Qed.

(** Without a recorded path [unregister] throws, after the entry was
    removed from the collection. *)
Lemma unregister_without_path (this : Command.t) (w : CommandMethods.World) :
  Command.path this = None ->
  fst (CommandMethods.unregister this w)
  = Rejected (TypeError "The request argument must be of type string").
Proof.
  intros Hp.
  unfold CommandMethods.unregister, bind, Process.modify_client, Process.resolve,
    ModuleSystem.resolve. cbn [Process.client Process.modules]. now rewrite Hp.
Qed.

(** Importing a path that resolves yields what [loaded] says, keeps the
    source, and changes what no path yields. *)
Lemma import_eval {E} (ms : ModuleSystem.t E) p exports :
  Collection.get p (ModuleSystem.disk ms) <> None ->
  loaded ms p = Some exports ->
  exists ms',
    ModuleSystem.import (Some p) ms = (Resolved exports, ms') /\
    ModuleSystem.disk ms' = ModuleSystem.disk ms /\
    forall q, loaded ms' q = loaded ms q.
Proof.
  intros Hres Hload. unfold ModuleSystem.import, ModuleSystem.resolve.
  destruct (Collection.get p (ModuleSystem.disk ms)) as [x|] eqn:Ed; [|contradiction].
  unfold loaded in Hload.
  destruct (Collection.get p (ModuleSystem.cache ms)) as [y|] eqn:Ec.
  - injection Hload as ->. exists ms. repeat split.
  - rewrite Ed in Hload. injection Hload as ->. rewrite Ed.
    eexists. split; [reflexivity|]. split; [reflexivity|].
    intros q. unfold loaded. cbn [ModuleSystem.cache ModuleSystem.disk].
    destruct (string_dec q p) as [->|Hne].
    + now rewrite get_set_same, Ec, Ed.
    + now rewrite get_set_other.
Qed.

Lemma register_eval (this : Command.t) (w : CommandMethods.World) p data :
  Command.path this = Some p ->
  Collection.get p (ModuleSystem.disk (Process.modules w)) <> None ->
  loaded (Process.modules w) p = Some (Some data) ->
  let AC := Command.constructor data in
  exists ms',
    CommandMethods.register this w
    = match ShewenyClient.collections_commands (Process.client w) with
      | Some cs =>
          (Resolved (Collection.set (Command.name AC) AC cs),
           {| Process.client :=
                ShewenyClient.with_commands
                  (Some (Collection.set (Command.name AC) AC cs))
                  (Process.client w);
              Process.modules := ms' |})
      | None =>
          (Resolved [(Command.name AC, AC)],
           {| Process.client := Process.client w; Process.modules := ms' |})
      end.
Proof.
  intros Hp Hres Hload AC.
  destruct (@import_eval _ _ _ _ Hres Hload) as (ms' & Himp & _).
  exists ms'.
  unfold CommandMethods.register, bind at 1, Process.in_modules.
  rewrite Hp, Himp.
  unfold bind, get_state, Process.modify_client, ret.
  cbn [Process.client Process.modules]. fold AC.
  destruct (ShewenyClient.collections_commands (Process.client w)); reflexivity.
Qed.

(** C8, as it holds: for a definition whose recorded path resolves,
    unregister returns true, deletes the entry keyed by the definition's
    name from the client's command collection (a collection that did not
    hold it is left as it was) and deletes the module cache entry of the
    path, so that the next import of the path reads the source. *)
Theorem unregister_removes_and_invalidates
  (this : Command.t) (w : CommandMethods.World) (p : string)
  (Hp : Command.path this = Some p)
  (Hres : Collection.get p (ModuleSystem.disk (Process.modules w)) <> None) :
  exists w',
    CommandMethods.unregister this w = (Resolved true, w') /\
    Process.client w'
    = ShewenyClient.with_commands
        (option_map (Collection.delete (Command.name this))
           (ShewenyClient.collections_commands (Process.client w)))
        (Process.client w) /\
    (forall cs, ShewenyClient.collections_commands (Process.client w') = Some cs ->
                Collection.get (Command.name this) cs = None) /\
    (forall cs, ShewenyClient.collections_commands (Process.client w) = Some cs ->
                Collection.get (Command.name this) cs = None ->
                Process.client w' = Process.client w) /\
    ModuleSystem.cache (Process.modules w')
    = Collection.delete p (ModuleSystem.cache (Process.modules w)) /\
    Collection.get p (ModuleSystem.cache (Process.modules w')) = None /\
    ModuleSystem.disk (Process.modules w') = ModuleSystem.disk (Process.modules w) /\
    loaded (Process.modules w') p
    = Collection.get p (ModuleSystem.disk (Process.modules w)).
Proof.
  eexists. split; [now apply (@unregister_eval this w p)|].
  cbn [Process.client Process.modules ModuleSystem.invalidate
       ModuleSystem.cache ModuleSystem.disk].
  split; [reflexivity|]. split; [|split; [|split; [|split; [|split]]]].
  - intros cs. cbn [ShewenyClient.with_commands ShewenyClient.collections_commands].
    destruct (ShewenyClient.collections_commands (Process.client w)) as [cs0|];
      cbn [option_map]; [|discriminate].
    intros [= <-]. apply get_delete_same.
  - intros cs Hcs Habs. rewrite Hcs. cbn [option_map].
    rewrite delete_absent by assumption. rewrite <- Hcs. apply with_commands_id.
  - reflexivity.
  - apply get_delete_same.
  - reflexivity.
  - unfold loaded. cbn [ModuleSystem.cache ModuleSystem.disk ModuleSystem.invalidate].
    now rewrite get_delete_same.
Qed.

(** The ping command is unregistered from a client that does not hold it. *)
Lemma unregister_removes_and_invalidates_witness :
  exists w',
    CommandMethods.unregister ping
      {| Process.client :=
           ShewenyClient.with_commands (Some [("report", report)]) sample_client;
         Process.modules := Process.modules renamed_world |}
    = (Resolved true, w') /\
    ShewenyClient.collections_commands (Process.client w') = Some [("report", report)] /\
    ModuleSystem.cache (Process.modules w') = [].
Proof.
  destruct (@unregister_removes_and_invalidates ping
              {| Process.client :=
                   ShewenyClient.with_commands (Some [("report", report)]) sample_client;
                 Process.modules := Process.modules renamed_world |}
              ping_path eq_refl)
    as (w' & Hrun & Hclient & _ & _ & Hcache & _).
  - simpl. discriminate.
  - exists w'. split; [exact Hrun|]. split.
    + rewrite Hclient. reflexivity.
    + rewrite Hcache. reflexivity.
Defined.

(** C8, as stated, fails: register stores an instance without a recorded
    path -- here the one constructed from the ping module -- and
    unregister of that instance does not return true: it throws a
    TypeError, after the entry of its name was removed from the
    collection, and the module cache is as before. *)
Lemma unregister_registered_instance_throws :
  fst (CommandMethods.register ping renamed_world)
  = Resolved [("ping", Command.constructor ping_data)] /\
  Command.path (Command.constructor ping_data) = None /\
  CommandMethods.unregister (Command.constructor ping_data)
    (snd (CommandMethods.register ping renamed_world))
  = (Rejected (TypeError "The request argument must be of type string"),
     {| Process.client := ShewenyClient.with_commands (Some []) sample_client;
        Process.modules := Process.modules renamed_world |}) /\
  fst (CommandMethods.unregister (Command.constructor ping_data)
         (snd (CommandMethods.register ping renamed_world)))
  <> Resolved true.
Proof.
  split; [reflexivity|]. split; [reflexivity|]. split; [reflexivity|].
  discriminate.
Qed.

(** C10: when the client has no command collection, register resolves to a
    new collection holding only the instance constructed from the module at
    the recorded path, keyed by its name, and the client is left as it
    was, its command collection still undefined. *)
Theorem register_without_collection
  (this : Command.t) (w : CommandMethods.World) (p : string) (data : CommandData.t)
  (Hnone : ShewenyClient.collections_commands (Process.client w) = None)
  (Hp : Command.path this = Some p)
  (Hres : Collection.get p (ModuleSystem.disk (Process.modules w)) <> None)
  (Hload : loaded (Process.modules w) p = Some (Some data)) :
  let AC := Command.constructor data in
  exists w',
    CommandMethods.register this w = (Resolved [(Command.name AC, AC)], w') /\
    Process.client w' = Process.client w /\
    ShewenyClient.collections_commands (Process.client w') = None.
Proof.
  intros AC.
  destruct (@register_eval this w p data Hp Hres Hload) as [ms' Hrun].
  rewrite Hnone in Hrun. eexists. split; [exact Hrun|].
  split; [reflexivity | exact Hnone].
Qed.

Lemma register_without_collection_witness :
  exists w',
    CommandMethods.register ping bare_world
    = (Resolved [("ping", Command.constructor ping_data)], w') /\
    Process.client w' = Process.client bare_world /\
    ShewenyClient.collections_commands (Process.client w') = None.
Proof.
  apply (@register_without_collection ping bare_world ping_path ping_data).
  - reflexivity.
  - reflexivity.
  - simpl. discriminate.
  - reflexivity.
Defined.

Lemma get_Some_In {V} k (v : V) c :
  Collection.get k c = Some v -> In (k, v) c.
Proof.
  induction c as [|[k' v'] r IH]; simpl; [discriminate|].
  destruct (k =? k') eqn:E.
  - apply String.eqb_eq in E. subst. intros [= ->]. now left.
  - intros H. right. now apply IH.
Qed.

Lemma In_values {V} k (v : V) c : In (k, v) c -> In v (Collection.values c).
Proof. intros H. unfold Collection.values. apply in_map_iff. now exists (k, v). Qed.

(** C7, as it holds: without a recorded path reload resolves to null and
    leaves the process as it was; with a recorded path whose module
    resolves and has a default export, reload is unregister followed by
    register and resolves to a collection that holds, under the name the
    module now declares, the instance constructed from the source -- an
    instance of the original name whenever the module still declares that
    name. *)
Theorem reload_reregisters (this : Command.t) (w : CommandMethods.World) :
  (truthy_string (Command.path this) = false ->
   CommandMethods.reload this w = (Resolved None, w)) /\
  (forall p data,
     Command.path this = Some p -> p <> EmptyString ->
     Collection.get p (ModuleSystem.disk (Process.modules w)) = Some (Some data) ->
     let AC := Command.constructor data in
     exists w1 cs w2,
       CommandMethods.unregister this w = (Resolved true, w1) /\
       CommandMethods.register this w1 = (Resolved cs, w2) /\
       CommandMethods.reload this w = (Resolved (Some cs), w2) /\
       Collection.get (CommandData.name data) cs = Some AC /\
       (CommandData.name data = Command.name this ->
        exists inst, In inst (Collection.values cs) /\
                     Command.name inst = Command.name this)).
Proof.
  split.
  - intros Hp. unfold CommandMethods.reload. now rewrite Hp.
  - intros p data Hp Hne Hdisk AC.
    assert (Hres : Collection.get p (ModuleSystem.disk (Process.modules w)) <> None)
      by (rewrite Hdisk; discriminate).
    pose proof (@unregister_eval this w p Hp Hres) as Hun.
    set (w1 := {| Process.client := _; Process.modules := _ |}) in Hun.
    assert (Hload1 : loaded (Process.modules w1) p = Some (Some data)).
    { unfold loaded, w1.
      cbn [Process.modules ModuleSystem.invalidate ModuleSystem.cache ModuleSystem.disk].
      now rewrite get_delete_same. }
    destruct (@register_eval this w1 p data Hp Hres Hload1) as [ms' Hreg].
    fold AC in Hreg.
    assert (Hrun : exists cs w2,
               CommandMethods.register this w1 = (Resolved cs, w2) /\
               Collection.get (CommandData.name data) cs = Some AC).
    { destruct (ShewenyClient.collections_commands (Process.client w1)) as [cs1|].
      - do 2 eexists. split; [exact Hreg|].
        change (Command.name AC) with (CommandData.name data). apply get_set_same.
      - do 2 eexists. split; [exact Hreg|].
        change (Command.name AC) with (CommandData.name data).
        simpl. now rewrite String.eqb_refl. }
    destruct Hrun as (cs & w2 & Hreg' & Hget).
    exists w1, cs, w2. split; [exact Hun|]. split; [exact Hreg'|].
    split; [|split; [exact Hget|]].
    + unfold CommandMethods.reload. rewrite Hp.
      apply String.eqb_neq in Hne. simpl. rewrite Hne. simpl.
      unfold bind at 1. rewrite Hun. unfold bind. now rewrite Hreg'.
    + intros Hname. exists AC. split.
      * eapply In_values, get_Some_In, Hget.
      * rewrite <- Hname. reflexivity.
Qed.

(** Reloading the ping command while its module is unchanged. *)
Lemma reload_reregisters_witness :
  exists w1 cs w2,
    CommandMethods.unregister ping
      {| Process.client := sample_client;
         Process.modules := Process.modules bare_world |} = (Resolved true, w1) /\
    CommandMethods.register ping w1 = (Resolved cs, w2) /\
    CommandMethods.reload ping
      {| Process.client := sample_client;
         Process.modules := Process.modules bare_world |} = (Resolved (Some cs), w2) /\
    Collection.get "ping" cs = Some (Command.constructor ping_data) /\
    ("ping" = Command.name ping ->
     exists inst, In inst (Collection.values cs) /\
                  Command.name inst = Command.name ping).
Proof.
  apply (proj2 (reload_reregisters ping
                  {| Process.client := sample_client;
                     Process.modules := Process.modules bare_world |})
               ping_path ping_data).
  - reflexivity.
  - discriminate.
  - reflexivity.
Defined.

(** C7, as stated, fails: the ping command has a recorded path, the source
    at that path was edited to declare pong; reload resolves to a
    collection holding the pong instance only, and no instance named
    ping. *)
Lemma reload_after_rename :
  Command.path ping = Some ping_path /\
  fst (CommandMethods.reload ping renamed_world)
  = Resolved (Some [("pong", Command.constructor pong_data)]) /\
  ~ (exists inst,
       In inst (Collection.values [("pong", Command.constructor pong_data)]) /\
       Command.name inst = Command.name ping).
Proof.
  split; [reflexivity|]. split; [reflexivity|].
  intros (inst & [<-|[]] & Hname). discriminate.
Qed.

(* ------------------------------------------------------------------ *)
(** ** EventsHandler.registerAll *)

Lemma with_events_id client :
  ShewenyClient.with_events (ShewenyClient.events client) client = client.
Proof. now destruct client. Qed.

Lemma loaded_of_resolved {E} (ms : ModuleSystem.t E) p :
  Collection.get p (ModuleSystem.disk ms) <> None ->
  exists exports, loaded ms p = Some exports.
Proof.
  intros H. unfold loaded.
  destruct (Collection.get p (ModuleSystem.cache ms)) as [x|]; [now exists x|].
  destruct (Collection.get p (ModuleSystem.disk ms)) as [x|]; [now exists x|contradiction].
Qed.

(** One iteration: the module is imported and, when it constructs a
    named instance, the instance is set under its name. *)
Lemma registerAll_step_eval (w : EventsHandler.World) evtPath :
  Collection.get evtPath (ModuleSystem.disk (Process.modules w)) <> None ->
  exists w',
    EventsHandler.registerAll_step evtPath w = (Resolved tt, w') /\
    Process.client w'
    = ShewenyClient.with_events
        (visited (loaded (Process.modules w) evtPath) evtPath
                 (ShewenyClient.events (Process.client w)))
        (Process.client w) /\
    ModuleSystem.disk (Process.modules w') = ModuleSystem.disk (Process.modules w) /\
    forall q, loaded (Process.modules w') q = loaded (Process.modules w) q.
Proof.
  intros Hres.
  destruct (loaded_of_resolved _ _ Hres) as [exports Hload].
  destruct (@import_eval _ _ _ _ Hres Hload) as (ms' & Himp & Hdisk & Hsame).
  unfold EventsHandler.registerAll_step, bind at 1, Process.in_modules.
  rewrite Himp, Hload. unfold visited.
  destruct exports as [instance|].
  - destruct (Event.name instance) as [name|].
    + destruct (name =? EmptyString).
      * eexists. split; [reflexivity|]. cbn [Process.client Process.modules].
        now rewrite with_events_id.
      * eexists. split; [reflexivity|]. cbn [Process.client Process.modules]. auto.
    + eexists. split; [reflexivity|]. cbn [Process.client Process.modules].
      now rewrite with_events_id.
  - eexists. split; [reflexivity|]. cbn [Process.client Process.modules].
    now rewrite with_events_id.
Qed.

Lemma fold_left_agree {A B} (f g : A -> B -> A) (l : list B) :
  (forall a b, f a b = g a b) -> forall a, fold_left f l a = fold_left g l a.
Proof.
  intros H. induction l as [|b r IH]; intros a; simpl; [reflexivity|].
  now rewrite H, IH.
Qed.

(** The loop: a left-to-right fold of [visited] over the paths. *)
Lemma registerAll_loop_eval evtsPaths : forall w : EventsHandler.World,
  (forall p, In p evtsPaths ->
     Collection.get p (ModuleSystem.disk (Process.modules w)) <> None) ->
  exists w',
    EventsHandler.registerAll_loop evtsPaths w = (Resolved tt, w') /\
    Process.client w'
    = ShewenyClient.with_events
        (fold_left (fun events p => visited (loaded (Process.modules w) p) p events)
                   evtsPaths (ShewenyClient.events (Process.client w)))
        (Process.client w).
Proof.
  induction evtsPaths as [|p rest IH]; intros w Hres.
  - exists w. split; [reflexivity|]. simpl. now rewrite with_events_id.
  - destruct (@registerAll_step_eval w p (Hres p (or_introl eq_refl)))
      as (w1 & Hstep & Hclient & Hdisk & Hsame).
    destruct (IH w1) as (w' & Hloop & Hclient').
    { intros q Hq. rewrite Hdisk. apply Hres. now right. }
    exists w'. split.
    + cbn [EventsHandler.registerAll_loop]. unfold bind. now rewrite Hstep.
    + rewrite Hclient', Hclient. cbn [fold_left].
      change (ShewenyClient.events (ShewenyClient.with_events ?e _)) with e.
      change (ShewenyClient.with_events ?e2 (ShewenyClient.with_events ?e1 ?c))
        with (ShewenyClient.with_events e2 c).
      f_equal. apply fold_left_agree. intros evs q. now rewrite Hsame.
Qed.

Lemma visited_wf exports p events :
  Collection.wf events -> Collection.wf (visited exports p events).
Proof.
  intros Hwf. unfold visited.
  destruct exports as [[instance|]|]; try assumption.
  destruct (Event.name instance) as [name|]; try assumption.
  destruct (name =? EmptyString); [assumption | now apply wf_set].
Qed.

Lemma visited_other_key (ms : ModuleSystem.t Event.t) q k events :
  (forall e, ~ declares ms q k e) ->
  Collection.get k (visited (loaded ms q) q events) = Collection.get k events.
Proof.
  intros Hno. unfold visited.
  destruct (loaded ms q) as [[instance|]|] eqn:El; try reflexivity.
  destruct (Event.name instance) as [name|] eqn:En; try reflexivity.
  destruct (name =? EmptyString) eqn:Ee; [reflexivity|].
  apply get_set_other. intros ->.
  apply (Hno instance). unfold declares. repeat split; try assumption.
  now apply String.eqb_neq.
Qed.

Lemma visited_declared (ms : ModuleSystem.t Event.t) p k e events :
  declares ms p k e ->
  visited (loaded ms p) p events
  = Collection.set k (Event.with_path (Some p) e) events.
Proof.
  intros (Hl & Hn & Hk). unfold visited. rewrite Hl, Hn.
  apply String.eqb_neq in Hk. now rewrite Hk.
Qed.

Lemma fold_visited_wf (ms : ModuleSystem.t Event.t) paths : forall events,
  Collection.wf events ->
  Collection.wf (fold_left (fun events p => visited (loaded ms p) p events)
                           paths events).
Proof.
  induction paths as [|p r IH]; intros events Hwf; simpl; [assumption|].
  apply IH. now apply visited_wf.
Qed.

Lemma fold_visited_keeps (ms : ModuleSystem.t Event.t) k paths : forall events,
  (forall q e, In q paths -> ~ declares ms q k e) ->
  Collection.get k (fold_left (fun events p => visited (loaded ms p) p events)
                              paths events)
  = Collection.get k events.
Proof.
  induction paths as [|p r IH]; intros events Hno; simpl; [reflexivity|].
  rewrite IH by (intros q e Hq; apply Hno; now right).
  apply visited_other_key. intros e. apply Hno. now left.
Qed.

(** C6: when the traversal meets two modules whose instances declare the
    same key, and no module after the second declares it, the collection
    after the scan maps the key to the instance of the second module, holds
    no other entry under that key, and so does not hold the instance of
    the first. *)
Theorem registerAll_later_instance_wins
  (w : EventsHandler.World) (mainPath dir : string)
  (tree : list EventsHandler.DirEntry)
  (before between later : list string) (p1 p2 k : string) (e1 e2 : Event.t)
  (Htraversal :
     EventsHandler.readDirAndPush (EventsHandler.join mainPath dir) tree
     = before ++ p1 :: between ++ p2 :: later)
  (Hres : forall p, In p (before ++ p1 :: between ++ p2 :: later) ->
            Collection.get p (ModuleSystem.disk (Process.modules w)) <> None)
  (H1 : declares (Process.modules w) p1 k e1)
  (H2 : declares (Process.modules w) p2 k e2)
  (Hlast : forall q e, In q later -> ~ declares (Process.modules w) q k e)
  (Hwf : Collection.wf (ShewenyClient.events (Process.client w))) :
  exists events w',
    EventsHandler.registerAll mainPath dir tree w = (Resolved events, w') /\
    ShewenyClient.events (Process.client w') = events /\
    Collection.get k events = Some (Event.with_path (Some p2) e2) /\
    List.filter (fun entry => k =? fst entry) events
    = [(k, Event.with_path (Some p2) e2)] /\
    (p1 <> p2 -> ~ In (k, Event.with_path (Some p1) e1) events).
Proof.
  destruct (registerAll_loop_eval _ w Hres) as (w' & Hloop & Hclient).
  set (step := fun events p => visited (loaded (Process.modules w) p) p events) in Hclient.
  set (events := fold_left step (before ++ p1 :: between ++ p2 :: later)
                           (ShewenyClient.events (Process.client w))) in Hclient.
  assert (Hget : Collection.get k events = Some (Event.with_path (Some p2) e2)).
  { unfold events.
    replace (before ++ p1 :: between ++ p2 :: later)
      with ((before ++ p1 :: between) ++ p2 :: later)
      by (rewrite <- app_assoc; reflexivity).
    rewrite fold_left_app. cbn [fold_left]. unfold step at 1.
    rewrite (fold_visited_keeps (Process.modules w) k later) by assumption.
    unfold step at 1. rewrite (visited_declared _ _ _ _ _ H2).
    apply get_set_same. }
  assert (Hwf' : Collection.wf events) by now apply fold_visited_wf.
  assert (Hone : List.filter (fun entry => k =? fst entry) events
                 = [(k, Event.with_path (Some p2) e2)])
    by now apply wf_entries_of_key.
  exists events, w'. split; [|split; [|split; [|split]]].
  - unfold EventsHandler.registerAll, EventsHandler.registerAll_paths.
    rewrite Htraversal. unfold bind at 1. rewrite Hloop.
    unfold bind, get_state, ret. now rewrite Hclient.
  - now rewrite Hclient.
  - exact Hget.
  - exact Hone.
  - intros Hne Hin.
    assert (Hf : In (k, Event.with_path (Some p1) e1)
                    (List.filter (fun entry => k =? fst entry) events)).
    { apply filter_In. split; [assumption | apply String.eqb_refl]. }
    rewrite Hone in Hf. destruct Hf as [Hf|[]].
    apply (f_equal snd) in Hf. apply (f_equal Event.path) in Hf.
    simpl in Hf. congruence.
Qed.

(** The scan of the sample events directory: the ready module of the
    subdirectory comes second and is the one the collection keeps. *)
Lemma registerAll_later_instance_wins_witness :
  exists events w',
    EventsHandler.registerAll "/bot" "events" events_tree events_world
    = (Resolved events, w') /\
    ShewenyClient.events (Process.client w') = events /\
    Collection.get "ready" events
    = Some (Event.with_path (Some "/bot/events/guild/ready.js") ready_guild) /\
    List.filter (fun entry => "ready" =? fst entry) events
    = [("ready", Event.with_path (Some "/bot/events/guild/ready.js") ready_guild)] /\
    ("/bot/events/ready.js" <> "/bot/events/guild/ready.js" ->
     ~ In ("ready", Event.with_path (Some "/bot/events/ready.js") ready_top) events).
Proof.
  apply (registerAll_later_instance_wins events_world "/bot" "events" events_tree
           [] [] ["/bot/events/message.js"]
           "/bot/events/ready.js" "/bot/events/guild/ready.js" "ready"
           ready_top ready_guild).
  - reflexivity.
  - intros p [<-|[<-|[<-|[]]]]; simpl; discriminate.
  - repeat split; discriminate.
  - repeat split; discriminate.
  - intros q e [<-|[]] (Hl & Hn & _). vm_compute in Hl.
    injection Hl as <-. discriminate Hn.
  - repeat constructor; simpl; tauto.
Defined.

(* ================================================================== *)
(** * Further properties *)

(* ------------------------------------------------------------------ *)
(** ** CommandsManager: constructor and getData *)

(** X1: getData throws exactly when it is given nothing and the manager
    has no collection either; the error is "Commands not found".  In every
    other case it returns. *)
Theorem getData_throws_iff (m : CommandsManager.t)
  (arg : option CommandsManager.CommandsArg) :
  (arg = None /\ CommandsManager.commands m = None ->
   CommandsManager.getData m arg = Rejected (Error "Commands not found")) /\
  (arg <> None \/ CommandsManager.commands m <> None ->
   exists data, CommandsManager.getData m arg = Resolved data) /\
  ((exists e, CommandsManager.getData m arg = Rejected e) ->
   arg = None /\ CommandsManager.commands m = None).
Proof.
  unfold CommandsManager.getData, default_param. repeat split.
  - intros [-> ->]. reflexivity.
  - intros H. destruct arg as [[cs|c]|].
    + eauto.
    + destruct (CommandsManager.getData_command m c); eauto.
    + destruct (CommandsManager.commands m); simpl; [eauto|].
      destruct H; contradiction.
  - destruct H as [e H]. destruct arg as [[cs|c]|]; try discriminate; [|reflexivity].
    destruct (CommandsManager.getData_command m c); discriminate.
  - destruct H as [e H]. destruct arg as [[cs|c]|]; try discriminate.
    + destruct (CommandsManager.getData_command m c); discriminate.
    + destruct (CommandsManager.commands m); [discriminate | reflexivity].
Qed.

(** X2: the projection of a collection lists the commands that are not
    message commands in the order of the collection, under their names. *)
Theorem getData_collection_names (m : CommandsManager.t)
  (cs : Collection.t Command.t) :
  map ApplicationCommandData.name (CommandsManager.getData_collection m cs)
  = map Command.name
        (List.filter (fun cmd => negb (isMessageCommand cmd)) (Collection.values cs)).
Proof.
  rewrite getData_collection_flat_map.
  induction (Collection.values cs) as [|c r IH]; simpl; [reflexivity|].
  rewrite map_app, IH.
  unfold projected, CommandsManager.getData_command, isMessageCommand.
  destruct (Command.type c); reflexivity.
Qed.

(** X3: every entry of a projection stems from a command of the
    collection with the same name, and its remote type tells the local
    one: CHAT_INPUT for a slash command, MESSAGE and USER for the two
    context menus.  Only a slash command's entry carries a description and
    options, taken from the command; a context menu's entry has neither. *)
Theorem getData_collection_entries (m : CommandsManager.t)
  (cs : Collection.t Command.t) (d : ApplicationCommandData.t) :
  In d (CommandsManager.getData_collection m cs) ->
  exists cmd,
    In cmd (Collection.values cs) /\
    ApplicationCommandData.name d = Command.name cmd /\
    (ApplicationCommandData.type d = CHAT_INPUT <-> Command.type cmd = SLASH_COMMAND) /\
    (ApplicationCommandData.type d = MESSAGE <-> Command.type cmd = CONTEXT_MENU_MESSAGE) /\
    (ApplicationCommandData.type d = USER <-> Command.type cmd = CONTEXT_MENU_USER) /\
    (Command.type cmd = SLASH_COMMAND ->
     ApplicationCommandData.description d = Some (Command.description cmd) /\
     ApplicationCommandData.options d = Command.options cmd) /\
    (Command.type cmd <> SLASH_COMMAND ->
     ApplicationCommandData.description d = None /\
     ApplicationCommandData.options d = None).
Proof.
  rewrite getData_collection_flat_map, in_flat_map.
  intros (cmd & Hin & Hd). exists cmd. split; [assumption|].
  unfold projected, CommandsManager.getData_command in Hd.
  destruct (Command.type cmd) eqn:Ety; simpl in Hd; try contradiction;
    destruct Hd as [<-|[]]; simpl;
    repeat split; try congruence; try discriminate; intros; congruence.
Qed.

Lemma getData_collection_entries_witness :
  exists cmd,
    In cmd (Collection.values [("say", say); ("report", report)]) /\
    "report" = Command.name cmd /\
    (MESSAGE = CHAT_INPUT <-> Command.type cmd = SLASH_COMMAND) /\
    (MESSAGE = MESSAGE <-> Command.type cmd = CONTEXT_MENU_MESSAGE) /\
    (MESSAGE = USER <-> Command.type cmd = CONTEXT_MENU_USER) /\
    (Command.type cmd = SLASH_COMMAND ->
     None = Some (Command.description cmd) /\ None = Command.options cmd) /\
    (Command.type cmd <> SLASH_COMMAND -> @None string = None /\
     @None (list ApplicationCommandOptionData) = None).
Proof.
  apply (getData_collection_entries guild_manager [("say", say); ("report", report)]
           {| ApplicationCommandData.type := MESSAGE;
              ApplicationCommandData.name := "report";
              ApplicationCommandData.description := None;
              ApplicationCommandData.options := None;
              ApplicationCommandData.defaultPermission := None |}).
  simpl. now left.
Defined.

(** X4: a manager as constructed has no collection, so its getData and its
    registerAllApplicationCommands, called without a collection, throw
    "Commands not found" without any remote call; its applicationPermissions
    is a boolean, true only when the option is true. *)
Theorem constructor_then_use
  (client : option ShewenyClient.t) (directory : string)
  (options : option CommandsManagerOptions.t) (m : CommandsManager.t)
  (Hnew : CommandsManagerExt.constructor client directory options = Resolved m) :
  client <> None /\ directory <> EmptyString /\
  CommandsManager.directory m = directory /\
  CommandsManager.commands m = None /\
  (exists b, CommandsManager.applicationPermissions m = Some b /\
             (b = true <->
              exists o, options = Some o /\
                        CommandsManagerOptions.applicationPermissions o = Some true)) /\
  CommandsManager.getData m None = Rejected (Error "Commands not found") /\
  (forall c platform guildId trace,
     CommandsManager.registerAllApplicationCommands m c platform None guildId trace
     = (Rejected (Error "Commands not found"), trace)).
Proof.
  unfold CommandsManagerExt.constructor in Hnew.
  destruct client as [c0|]; [|discriminate].
  destruct (directory =? EmptyString) eqn:Ed; [discriminate|].
  injection Hnew as <-. apply String.eqb_neq in Ed.
  split; [discriminate|]. split; [assumption|]. split; [reflexivity|].
  split; [reflexivity|]. split; [|split; [reflexivity|]].
  - eexists. split; [reflexivity|].
    destruct options as [o|]; simpl.
    + destruct (CommandsManagerOptions.applicationPermissions o) as [[]|] eqn:E; simpl.
      * split; [intros _; eauto | reflexivity].
      * split; [discriminate|]. intros (o' & [= <-] & H). congruence.
      * split; [discriminate|]. intros (o' & [= <-] & H). congruence.
    + split; [discriminate|]. intros (o' & H & _). discriminate.
  - intros c platform guildId trace. reflexivity.
Qed.

Lemma constructor_then_use_witness :
  exists m,
    CommandsManagerExt.constructor (Some sample_client) "commands" None = Resolved m /\
    CommandsManager.commands m = None /\
    CommandsManager.getData m None = Rejected (Error "Commands not found").
Proof.
  eexists. split; [reflexivity|].
  destruct (constructor_then_use (Some sample_client) "commands" None _ eq_refl)
    as (_ & _ & _ & Hc & _ & Hg & _).
  split; [exact Hc | exact Hg].
Defined.

(* ------------------------------------------------------------------ *)
(** ** CommandsManager.registerPermissions: errors, fan-out, grants *)

(** X5: registerPermissions checks, in this order, the remote commands,
    the local collection and the guild id, each after its default was
    applied, and throws a ReferenceError naming the first one missing (an
    empty guild id counts as missing), without any remote call. *)
Theorem registerPermissions_missing_arguments
  (m : CommandsManager.t) (client : ShewenyClient.t) (platform : Platform.t)
  (applicationCommands : option (Collection.t ApplicationCommand.t))
  (commandsCollection : option (Collection.t Command.t))
  (guildId : option CommandsManager.GuildIdArg) (trace : Trace) :
  let run := CommandsManager.registerPermissions m client platform
               applicationCommands commandsCollection guildId trace in
  let apps := default_param applicationCommands (ShewenyClient.application client) in
  let coll := default_param commandsCollection (CommandsManager.commands m) in
  let gid := default_param guildId
               (option_map CommandsManager.OneGuild (CommandsManager.guildId m)) in
  (apps = None ->
   run = (Rejected (ReferenceError "Commands of application must be provided"), trace)) /\
  (apps <> None -> coll = None ->
   run = (Rejected (ReferenceError "Commands of client must be provided"), trace)) /\
  (apps <> None -> coll <> None ->
   gid = None \/ gid = Some (CommandsManager.OneGuild EmptyString) ->
   run = (Rejected (ReferenceError "Guild ID must be provided"), trace)).
Proof.
  cbv zeta. unfold CommandsManager.registerPermissions. repeat split.
  - intros ->. reflexivity.
  - intros Ha ->. destruct (default_param applicationCommands _); [reflexivity|contradiction].
  - intros Ha Hc Hg.
    destruct (default_param applicationCommands _); [|contradiction].
    destruct (default_param commandsCollection _); [|contradiction].
    destruct Hg as [-> | ->]; reflexivity.
Qed.

Lemma getRoles_some guild cmd :
  exists roles, CommandsManager.getRoles guild (Some cmd) = Resolved roles.
Proof.
  unfold CommandsManager.getRoles.
  destruct (length (Command.userPermissions cmd) =? 0)%nat; eauto.
Qed.

Lemma buildFullPermissions_unmatched client guild coll apps : forall acc,
  (exists a, In a apps /\ Collection.get (ApplicationCommand.name a) coll = None) ->
  CommandsManager.buildFullPermissions client guild coll apps acc
  = Rejected (TypeError "Cannot read properties of undefined").
Proof.
  induction apps as [|a r IH]; intros acc (b & Hin & Hb); [contradiction|].
  cbn [CommandsManager.buildFullPermissions].
  destruct (Collection.get (ApplicationCommand.name a) coll) as [cmd|] eqn:Ea.
  - destruct (getRoles_some guild cmd) as [roles ->].
    apply IH. exists b. split; [|assumption].
    destruct Hin as [->|Hin]; [congruence | assumption].
  - reflexivity.
Qed.

Lemma buildFullPermissions_matched client guild coll apps : forall acc,
  (forall a, In a apps -> Collection.get (ApplicationCommand.name a) coll <> None) ->
  exists full,
    CommandsManager.buildFullPermissions client guild coll apps acc = Resolved full.
Proof.
  induction apps as [|a r IH]; intros acc Hmatch; simpl; [eauto|].
  destruct (Collection.get (ApplicationCommand.name a) coll) as [cmd|] eqn:Ea.
  - destruct (getRoles_some guild cmd) as [roles ->].
    apply IH. intros; apply Hmatch; now right.
  - exfalso. apply (Hmatch a); [now left | assumption].
Qed.

(** X6: when some remote command has no local command of its name, the
    synchronisation of a guild throws a TypeError before any remote call,
    whatever the other commands are and whether the guild is known. *)
Theorem registerPermissions_unmatched_command
  (m : CommandsManager.t) (client : ShewenyClient.t) (platform : Platform.t)
  (applicationCommands : Collection.t ApplicationCommand.t)
  (commandsCollection : Collection.t Command.t)
  (guildId : Snowflake) (trace : Trace)
  (Hid : guildId <> EmptyString)
  (Hmiss : exists a, In a (Collection.values applicationCommands) /\
             Collection.get (ApplicationCommand.name a) commandsCollection = None) :
  CommandsManager.registerPermissions m client platform
    (Some applicationCommands) (Some commandsCollection)
    (Some (CommandsManager.OneGuild guildId)) trace
  = (Rejected (TypeError "Cannot read properties of undefined"), trace).
Proof.
  unfold CommandsManager.registerPermissions, default_param, bind at 1.
  unfold CommandsManager.registerPermissions_guild.
  apply String.eqb_neq in Hid. simpl. rewrite Hid. simpl.
  unfold bind, lift. now rewrite buildFullPermissions_unmatched.
Qed.

Lemma registerPermissions_unmatched_command_witness :
  CommandsManager.registerPermissions guild_manager sample_client sample_platform
    (Some [("9001", ping_registered);
           ("9002", {| ApplicationCommand.id := "9002";
                       ApplicationCommand.name := "foreign" |})])
    (Some [("ping", ping)])
    (Some (CommandsManager.OneGuild "1001")) []
  = (Rejected (TypeError "Cannot read properties of undefined"), []).
Proof.
  apply registerPermissions_unmatched_command.
  - discriminate.
  - eexists. split; [right; left; reflexivity | reflexivity].
Defined.

(** X7: for a guild the client does not know, and remote commands that all
    have a local counterpart, the synchronisation resolves without any
    remote call. *)
Theorem registerPermissions_unknown_guild
  (m : CommandsManager.t) (client : ShewenyClient.t) (platform : Platform.t)
  (applicationCommands : Collection.t ApplicationCommand.t)
  (commandsCollection : Collection.t Command.t)
  (guildId : Snowflake) (trace : Trace)
  (Hid : guildId <> EmptyString)
  (Hguild : Collection.get guildId (ShewenyClient.guilds client) = None)
  (Hmatch : forall a, In a (Collection.values applicationCommands) ->
              Collection.get (ApplicationCommand.name a) commandsCollection <> None) :
  CommandsManager.registerPermissions m client platform
    (Some applicationCommands) (Some commandsCollection)
    (Some (CommandsManager.OneGuild guildId)) trace
  = (Resolved None, trace).
Proof.
  unfold CommandsManager.registerPermissions, default_param, bind at 1.
  unfold CommandsManager.registerPermissions_guild.
  apply String.eqb_neq in Hid. simpl. rewrite Hid. simpl.
  rewrite Hguild. unfold bind, lift.
  destruct (buildFullPermissions_matched client None commandsCollection
              (Collection.values applicationCommands) [] Hmatch) as [full ->].
  reflexivity.
Qed.

Lemma registerPermissions_unknown_guild_witness :
  CommandsManager.registerPermissions guild_manager sample_client sample_platform
    (Some [("9001", ping_registered)]) (Some [("ping", ping)])
    (Some (CommandsManager.OneGuild "2002")) []
  = (Resolved None, []).
Proof.
  apply registerPermissions_unknown_guild.
  - discriminate.
  - reflexivity.
  - intros a [<-|[]]. simpl. discriminate.
Defined.

Lemma registerPermissions_guild_shift client platform apps coll g trace :
  CommandsManager.registerPermissions_guild client platform apps coll g trace
  = (fst (CommandsManager.registerPermissions_guild client platform apps coll g []),
     trace ++
     snd (CommandsManager.registerPermissions_guild client platform apps coll g [])).
Proof.
  unfold CommandsManager.registerPermissions_guild.
  destruct (negb (truthy_string (Some g))).
  - unfold throw. simpl. now rewrite app_nil_r.
  - unfold bind, lift.
    destruct (CommandsManager.buildFullPermissions _ _ _ _ _) as [full|e|];
      simpl; rewrite ?app_nil_r; try reflexivity.
    destruct (Collection.get g (ShewenyClient.guilds client)); simpl;
      now rewrite ?app_nil_r.
Qed.

Lemma guildCalls_eq m client platform apps coll g :
  guildCalls m client platform apps coll g
  = snd (CommandsManager.registerPermissions_guild client platform apps coll g []).
Proof.
  unfold guildCalls, CommandsManager.registerPermissions, default_param, bind.
  destruct (CommandsManager.registerPermissions_guild _ _ _ _ _ _) as [[] t1];
    reflexivity.
Qed.

Lemma registerPermissions_every_eval m client platform apps coll gs : forall trace,
  CommandsManager.registerPermissions_every client platform apps coll gs trace
  = (Resolved true, trace ++ flat_map (guildCalls m client platform apps coll) gs).
Proof.
  induction gs as [|g r IH]; intros trace; simpl.
  - unfold ret. now rewrite app_nil_r.
  - rewrite (registerPermissions_guild_shift client platform apps coll g trace).
    rewrite IH, guildCalls_eq. now rewrite app_assoc.
Qed.

(** X8: for a list of guild ids registerPermissions always resolves to
    true, and its remote calls are those of the separate synchronisations
    of each guild, in the order of the list: a guild whose synchronisation
    fails neither stops nor alters the others.  An empty list gives no
    call. *)
Theorem registerPermissions_fans_out
  (m : CommandsManager.t) (client : ShewenyClient.t) (platform : Platform.t)
  (applicationCommandsArg : option (Collection.t ApplicationCommand.t))
  (commandsCollectionArg : option (Collection.t Command.t))
  (applicationCommands : Collection.t ApplicationCommand.t)
  (commandsCollection : Collection.t Command.t)
  (guildIds : list Snowflake) (trace : Trace)
  (Happs : default_param applicationCommandsArg (ShewenyClient.application client)
           = Some applicationCommands)
  (Hcoll : default_param commandsCollectionArg (CommandsManager.commands m)
           = Some commandsCollection) :
  CommandsManager.registerPermissions m client platform
    applicationCommandsArg commandsCollectionArg
    (Some (CommandsManager.ManyGuilds guildIds)) trace
  = (Resolved (Some true),
     trace ++
     flat_map (guildCalls m client platform applicationCommands commandsCollection)
              guildIds).
Proof.
  unfold CommandsManager.registerPermissions. rewrite Happs, Hcoll.
  cbn [default_param]. unfold bind.
  now rewrite (registerPermissions_every_eval m).
Qed.

(** Three guild ids: an unknown guild, the sample guild and an empty id.
    Only the sample guild gets a call. *)
Lemma registerPermissions_fans_out_witness :
  CommandsManager.registerPermissions guild_manager sample_client sample_platform
    (Some [("9001", ping_registered)]) None
    (Some (CommandsManager.ManyGuilds ["2002"; "1001"; EmptyString])) []
  = (Resolved (Some true),
     [PermissionsSet "1001"
        [ {| GuildApplicationCommandPermissionData.id := "9001";
             GuildApplicationCommandPermissionData.permissions :=
               [ CommandsManager.roleEntry
                   {| Role.id := "r1";
                      Role.permissions := ["SEND_MESSAGES"; "MANAGE_MESSAGES"] |};
                 CommandsManager.userEntry "42";
                 CommandsManager.userEntry "43" ] |} ]]).
Proof.
  apply (registerPermissions_fans_out guild_manager sample_client sample_platform
           (Some [("9001", ping_registered)]) None
           [("9001", ping_registered)] [("ping", ping)]
           ["2002"; "1001"; EmptyString] []); reflexivity.
Defined.

Lemma buildPermissions_grants client roles perm :
  In perm (CommandsManager.buildPermissions client roles) ->
  ApplicationCommandPermissionData.permission perm = true.
Proof.
  destruct roles as [rs|].
  - rewrite buildPermissions_some, in_app_iff, !in_map_iff.
    intros [(r & <- & _) | (u & <- & _)]; reflexivity.
  - rewrite buildPermissions_none, in_map_iff. intros (u & <- & _). reflexivity.
Qed.

Lemma buildFullPermissions_grants client guild coll apps : forall acc full,
  grantsOnly acc ->
  CommandsManager.buildFullPermissions client guild coll apps acc = Resolved full ->
  grantsOnly full.
Proof.
  induction apps as [|a r IH]; intros acc full Hacc; simpl.
  - now intros [= <-].
  - destruct (CommandsManager.getRoles guild _) as [roles|e|]; try discriminate.
    apply IH. intros entry Hin perm Hperm.
    apply in_app_iff in Hin. destruct Hin as [Hin|[<-|[]]].
    + now apply (Hacc entry).
    + simpl in Hperm. now apply buildPermissions_grants in Hperm.
Qed.

Lemma registerPermissions_guild_grants client platform apps coll g :
  Forall grantingCall
    (snd (CommandsManager.registerPermissions_guild client platform apps coll g [])).
Proof.
  unfold CommandsManager.registerPermissions_guild.
  destruct (negb (truthy_string (Some g))); [constructor|].
  unfold bind, lift.
  destruct (CommandsManager.buildFullPermissions _ _ _ _ _) as [full|e|] eqn:E;
    try constructor.
  destruct (Collection.get g (ShewenyClient.guilds client)) as [guild|];
    simpl; repeat constructor.
  simpl. eapply buildFullPermissions_grants; [|exact E].
  intros entry [].
Qed.

(** X9: whatever its arguments, registerPermissions only adds calls that
    set permission tables, and every entry of every table it sets grants
    (permission = true): it never replaces the commands and never denies a
    role or a user. *)
Theorem registerPermissions_grants_only
  (m : CommandsManager.t) (client : ShewenyClient.t) (platform : Platform.t)
  (applicationCommands : option (Collection.t ApplicationCommand.t))
  (commandsCollection : option (Collection.t Command.t))
  (guildId : option CommandsManager.GuildIdArg) (trace : Trace) :
  exists calls,
    snd (CommandsManager.registerPermissions m client platform
           applicationCommands commandsCollection guildId trace)
    = trace ++ calls /\
    Forall grantingCall calls.
Proof.
  unfold CommandsManager.registerPermissions.
  destruct (default_param applicationCommands _) as [apps|];
    [|exists []; simpl; now rewrite app_nil_r].
  destruct (default_param commandsCollection _) as [coll|];
    [|exists []; simpl; now rewrite app_nil_r].
  destruct (default_param guildId _) as [[g|gs]|];
    [| |exists []; simpl; now rewrite app_nil_r]; unfold bind.
  - rewrite (registerPermissions_guild_shift client platform apps coll g trace).
    eexists. split; [|apply (registerPermissions_guild_grants client platform apps coll g)].
    destruct (fst _); reflexivity.
  - rewrite (registerPermissions_every_eval m). eexists. split; [reflexivity|].
    apply Forall_flat_map. apply Forall_forall. intros g _.
    rewrite guildCalls_eq. apply registerPermissions_guild_grants.
Qed.

(* ------------------------------------------------------------------ *)
(** ** CommandsManager.registerAllApplicationCommands: readiness and
       permission synchronisation *)

(** X10: as long as no ready event follows, the call stays pending and
    nothing reaches the platform. *)
Theorem registerAll_waits_for_ready
  (m : CommandsManager.t) (client : ShewenyClient.t) (platform : Platform.t)
  (commandsArg : option (Collection.t Command.t)) (guildIdArg : option Snowflake)
  (trace : Trace)
  (Hown : CommandsManager.commands m <> None)
  (Hready : ShewenyClient.ready_emitted client = false) :
  CommandsManager.registerAllApplicationCommands m client platform
    commandsArg guildIdArg trace
  = (Pending, trace).
Proof.
  unfold CommandsManager.registerAllApplicationCommands.
  destruct (CommandsManager.commands m) as [own|] eqn:Eo; [|contradiction].
  assert (Hd : default_param commandsArg (Some own) <> None)
    by (destruct commandsArg; discriminate).
  destruct (default_param commandsArg (Some own)); [|contradiction].
  unfold bind, lift, CommandsManager.getData, default_param at 1.
  rewrite Eo. cbn [option_map].
  unfold ShewenyClient.awaitReady. now rewrite Hready.
Qed.

Lemma registerAll_waits_for_ready_witness :
  CommandsManager.registerAllApplicationCommands guild_manager
    {| ShewenyClient.admins := [];
       ShewenyClient.events := [];
       ShewenyClient.collections_commands := None;
       ShewenyClient.application := None;
       ShewenyClient.guilds := [];
       ShewenyClient.ready_emitted := false |}
    sample_platform None None []
  = (Pending, []).
Proof.
  apply registerAll_waits_for_ready.
  - discriminate.
  - reflexivity.
Defined.

Lemma registerAll_set_then_sync
  (m : CommandsManager.t) (client : ShewenyClient.t) (platform : Platform.t)
  (commandsArg : option (Collection.t Command.t)) (guildIdArg : option Snowflake)
  (own : Collection.t Command.t) (cmds : Collection.t ApplicationCommand.t)
  (trace : Trace) :
  default_param commandsArg (CommandsManager.commands m) <> None ->
  CommandsManager.commands m = Some own ->
  ShewenyClient.ready_emitted client = true ->
  ShewenyClient.application client <> None ->
  CommandsManager.getData_collection m own <> [] ->
  truthy_bool (CommandsManager.applicationPermissions m) = true ->
  let data := CommandsManager.getData_collection m own in
  let scope := scopeOf (default_param guildIdArg (CommandsManager.guildId m)) in
  Platform.commands_set platform data scope = Resolved cmds ->
  CommandsManager.registerAllApplicationCommands m client platform
    commandsArg guildIdArg trace
  = let (o, trace') :=
      CommandsManager.registerPermissions m client platform (Some cmds) None None
        (trace ++ [CommandsSet data scope]) in
    (after o (Some cmds), trace').
Proof.
  intros Harg Hown Hready Happ Hdata Hperm data scope Hset.
  unfold CommandsManager.registerAllApplicationCommands.
  destruct (default_param commandsArg (CommandsManager.commands m)); [|contradiction].
  unfold bind at 1. unfold lift, CommandsManager.getData, default_param at 1.
  rewrite Hown. cbn [option_map].
  unfold bind at 1. unfold ShewenyClient.awaitReady. rewrite Hready.
  unfold ret at 1. fold data.
  destruct data as [|d ds] eqn:Ed; [contradiction|].
  change (0 <? length (d :: ds))%nat with true. cbv iota.
  fold (default_param guildIdArg (CommandsManager.guildId m)).
  assert (Hcall :
    (if truthy_string (default_param guildIdArg (CommandsManager.guildId m))
     then CommandsManager.application_commands_set client platform (d :: ds)
            (default_param guildIdArg (CommandsManager.guildId m))
     else CommandsManager.application_commands_set client platform (d :: ds) None)
    = CommandsManager.application_commands_set client platform (d :: ds) scope).
  { unfold scope, scopeOf. now destruct (truthy_string _). }
  rewrite Hcall. unfold bind at 1.
  unfold CommandsManager.application_commands_set.
  destruct (ShewenyClient.application client) as [cache|]; [|contradiction].
  rewrite Hset. unfold bind at 1. rewrite Hperm.
  destruct (CommandsManager.registerPermissions _ _ _ _ _ _ _) as [[] t1]; reflexivity.
Qed.

(** X11: with permission synchronisation enabled on a manager that has no
    guild id, the commands are replaced and the call then fails with the
    ReferenceError "Guild ID must be provided" -- also when a guild id was
    passed to the call, which only scopes the replacement. *)
Theorem registerAll_permissions_without_manager_guild
  (m : CommandsManager.t) (client : ShewenyClient.t) (platform : Platform.t)
  (commandsArg : option (Collection.t Command.t)) (guildIdArg : option Snowflake)
  (own : Collection.t Command.t) (cmds : Collection.t ApplicationCommand.t)
  (trace : Trace)
  (Harg : default_param commandsArg (CommandsManager.commands m) <> None)
  (Hown : CommandsManager.commands m = Some own)
  (Hready : ShewenyClient.ready_emitted client = true)
  (Happ : ShewenyClient.application client <> None)
  (Hdata : CommandsManager.getData_collection m own <> [])
  (Hperm : CommandsManager.applicationPermissions m = Some true)
  (Hguild : truthy_string (CommandsManager.guildId m) = false)
  (Hset : Platform.commands_set platform
            (CommandsManager.getData_collection m own)
            (scopeOf guildIdArg) = Resolved cmds) :
  CommandsManager.registerAllApplicationCommands m client platform
    commandsArg guildIdArg trace
  = (Rejected (ReferenceError "Guild ID must be provided"),
     trace ++ [CommandsSet (CommandsManager.getData_collection m own)
                           (scopeOf guildIdArg)]).
Proof.
  assert (Hscope : scopeOf (default_param guildIdArg (CommandsManager.guildId m))
                   = scopeOf guildIdArg).
  { unfold scopeOf. destruct guildIdArg as [g|]; [reflexivity|].
    cbn [default_param]. now rewrite Hguild. }
  rewrite (registerAll_set_then_sync m client platform commandsArg guildIdArg
             own cmds trace Harg Hown Hready Happ Hdata);
    [| now rewrite Hperm | now rewrite Hscope].
  rewrite Hscope.
  unfold CommandsManager.registerPermissions. cbn [default_param].
  rewrite Hown.
  destruct (CommandsManager.guildId m) as [g|]; cbn [option_map]; [|reflexivity].
  unfold bind, CommandsManager.registerPermissions_guild.
  cbn [truthy_string] in Hguild |- *. now rewrite Hguild.
Qed.

Lemma registerAll_permissions_without_manager_guild_witness :
  CommandsManager.registerAllApplicationCommands
    {| CommandsManager.directory := "commands";
       CommandsManager.guildId := None;
       CommandsManager.prefix := None;
       CommandsManager.applicationPermissions := Some true;
       CommandsManager.commands := Some [("ping", ping)] |}
    sample_client sample_platform None (Some "1001") []
  = (Rejected (ReferenceError "Guild ID must be provided"),
     [CommandsSet
        [ {| ApplicationCommandData.type := CHAT_INPUT;
             ApplicationCommandData.name := "ping";
             ApplicationCommandData.description := Some "Replies with pong";
             ApplicationCommandData.options := None;
             ApplicationCommandData.defaultPermission := Some true |} ]
        (Some "1001")]).
Proof.
  apply (registerAll_permissions_without_manager_guild
           {| CommandsManager.directory := "commands";
              CommandsManager.guildId := None;
              CommandsManager.prefix := None;
              CommandsManager.applicationPermissions := Some true;
              CommandsManager.commands := Some [("ping", ping)] |}
           sample_client
           sample_platform None (Some "1001") [("ping", ping)]
           [("ping", {| ApplicationCommand.id := "ping";
                        ApplicationCommand.name := "ping" |})] []);
    try reflexivity; discriminate.
Defined.

Lemma registerPermissions_defaults_eval
  (m : CommandsManager.t) (client : ShewenyClient.t) (platform : Platform.t)
  (cmds : Collection.t ApplicationCommand.t) (own : Collection.t Command.t)
  (g : Snowflake) (guild : Guild.t) (trace : Trace) :
  CommandsManager.commands m = Some own ->
  CommandsManager.guildId m = Some g ->
  g <> EmptyString ->
  Collection.get g (ShewenyClient.guilds client) = Some guild ->
  (forall a, In a (Collection.values cmds) ->
     Collection.get (ApplicationCommand.name a) own <> None) ->
  let full := map (expectedPermissions client guild own) (Collection.values cmds) in
  CommandsManager.registerPermissions m client platform (Some cmds) None None trace
  = (after (Platform.permissions_set platform (Guild.id guild) full) None,
     trace ++ [PermissionsSet (Guild.id guild) full]).
Proof.
  intros Hown Hg Hne Hguild Hmatch full.
  unfold CommandsManager.registerPermissions. cbn [default_param].
  rewrite Hown, Hg. cbn [option_map].
  unfold bind, CommandsManager.registerPermissions_guild.
  apply String.eqb_neq in Hne. cbn [truthy_string]. rewrite Hne. cbn [negb].
  rewrite Hguild. unfold bind, lift.
  rewrite buildFullPermissions_spec by assumption. cbn [app]. fold full.
  destruct (Platform.permissions_set platform (Guild.id guild) full); reflexivity.
Qed.

(** X12: on a manager bound to a guild the client knows, with permission
    synchronisation enabled, a successful registration makes exactly two
    remote calls: the replacement of the commands, then the permission
    table of the manager's guild, computed for the commands the platform
    returned; it resolves to those commands once the table is accepted. *)
Theorem registerAll_sets_then_grants
  (m : CommandsManager.t) (client : ShewenyClient.t) (platform : Platform.t)
  (commandsArg : option (Collection.t Command.t)) (guildIdArg : option Snowflake)
  (own : Collection.t Command.t) (cmds : Collection.t ApplicationCommand.t)
  (g : Snowflake) (guild : Guild.t) (trace : Trace)
  (Harg : default_param commandsArg (CommandsManager.commands m) <> None)
  (Hown : CommandsManager.commands m = Some own)
  (Hready : ShewenyClient.ready_emitted client = true)
  (Happ : ShewenyClient.application client <> None)
  (Hdata : CommandsManager.getData_collection m own <> [])
  (Hperm : CommandsManager.applicationPermissions m = Some true)
  (Hg : CommandsManager.guildId m = Some g)
  (Hne : g <> EmptyString)
  (Hguild : Collection.get g (ShewenyClient.guilds client) = Some guild)
  (Hset : Platform.commands_set platform
            (CommandsManager.getData_collection m own)
            (scopeOf (default_param guildIdArg (Some g))) = Resolved cmds)
  (Hmatch : forall a, In a (Collection.values cmds) ->
              Collection.get (ApplicationCommand.name a) own <> None) :
  let data := CommandsManager.getData_collection m own in
  let scope := scopeOf (default_param guildIdArg (Some g)) in
  let full := map (expectedPermissions client guild own) (Collection.values cmds) in
  CommandsManager.registerAllApplicationCommands m client platform
    commandsArg guildIdArg trace
  = (after (Platform.permissions_set platform (Guild.id guild) full) (Some cmds),
     trace ++ [CommandsSet data scope; PermissionsSet (Guild.id guild) full]).
Proof.
  intros data scope full.
  rewrite (registerAll_set_then_sync m client platform commandsArg guildIdArg
             own cmds trace Harg Hown Hready Happ Hdata);
    [| now rewrite Hperm | now rewrite Hg].
  rewrite Hg.
  rewrite (registerPermissions_defaults_eval m client platform cmds own g guild
             _ Hown Hg Hne Hguild Hmatch).
  fold data scope full. rewrite <- app_assoc. cbn [app].
  destruct (Platform.permissions_set platform (Guild.id guild) full); reflexivity.
Qed.

Lemma registerAll_sets_then_grants_witness :
  CommandsManager.registerAllApplicationCommands guild_manager sample_client
    sample_platform None None []
  = (Resolved (Some [("ping", {| ApplicationCommand.id := "ping";
                                 ApplicationCommand.name := "ping" |})]),
     [ CommandsSet
         [ {| ApplicationCommandData.type := CHAT_INPUT;
              ApplicationCommandData.name := "ping";
              ApplicationCommandData.description := Some "Replies with pong";
              ApplicationCommandData.options := None;
              ApplicationCommandData.defaultPermission := Some false |} ]
         (Some "1001");
       PermissionsSet "1001"
         [ {| GuildApplicationCommandPermissionData.id := "ping";
              GuildApplicationCommandPermissionData.permissions :=
                [ CommandsManager.roleEntry
                    {| Role.id := "r1";
                       Role.permissions := ["SEND_MESSAGES"; "MANAGE_MESSAGES"] |};
                  CommandsManager.userEntry "42";
                  CommandsManager.userEntry "43" ] |} ] ]).
Proof.
  apply (registerAll_sets_then_grants guild_manager sample_client sample_platform
           None None [("ping", ping)]
           [("ping", {| ApplicationCommand.id := "ping";
                        ApplicationCommand.name := "ping" |})]
           "1001" sample_guild []);
    try reflexivity; try discriminate.
  intros a [<-|[]]. simpl. discriminate.
Defined.

(* ------------------------------------------------------------------ *)
(** ** CommandsManager.loadAll and loadAndRegisterAll *)

Lemma getData_collection_with_commands m cs own :
  CommandsManager.getData_collection (CommandsManagerExt.with_commands own m) cs
  = CommandsManager.getData_collection m cs.
Proof. reflexivity. Qed.

(** X13: loadAndRegisterAll stores what was loaded in the manager and in
    the client and registers it: when a collection with a non-empty
    projection was loaded, the replacement sent carries the projection of
    that collection, scoped by the manager's guild id; when nothing was
    loaded, the manager and the client lose their collection and the call
    fails with "Commands not found" without a remote call. *)
Theorem loadAndRegisterAll_registers_loaded
  (m : CommandsManager.t) (client : ShewenyClient.t) (platform : Platform.t)
  (trace : Trace) :
  (forall cs,
     ShewenyClient.ready_emitted client = true ->
     ShewenyClient.application client <> None ->
     CommandsManager.getData_collection m cs <> [] ->
     exists o rest,
       CommandsManagerExt.loadAndRegisterAll platform (Resolved (Some cs))
         (m, client, trace)
       = (o, (CommandsManagerExt.with_commands (Some cs) m,
              ShewenyClient.with_commands (Some cs) client,
              trace ++ CommandsSet (CommandsManager.getData_collection m cs)
                                   (scopeOf (CommandsManager.guildId m)) :: rest))) /\
  CommandsManagerExt.loadAndRegisterAll platform (Resolved None) (m, client, trace)
  = (Rejected (Error "Commands not found"),
     (CommandsManagerExt.with_commands None m,
      ShewenyClient.with_commands None client, trace)).
Proof.
  split.
  - intros cs Hready Happ Hdata.
    unfold CommandsManagerExt.loadAndRegisterAll, CommandsManagerExt.loadAll.
    unfold bind, lift, get_state, put_state, ret. cbn [fst snd].
    set (m' := CommandsManagerExt.with_commands (Some cs) m).
    set (client' := ShewenyClient.with_commands (Some cs) client).
    destruct (registerAll_submits_own_projection m' client' platform (Some cs) None
                cs trace) as [rest Hrest]; try assumption; try reflexivity.
    + discriminate.
    + destruct (CommandsManager.registerAllApplicationCommands m' client' platform
                  (Some cs) None trace) as [o t1].
      cbn [snd] in Hrest. subst t1. eexists. exists rest. reflexivity.
  - reflexivity.
Qed.

Lemma loadAndRegisterAll_registers_loaded_witness :
  exists o rest,
    CommandsManagerExt.loadAndRegisterAll sample_platform
      (Resolved (Some [("say", say); ("report", report)]))
      (global_manager None, sample_client, [])
    = (o, (CommandsManagerExt.with_commands (Some [("say", say); ("report", report)])
             (global_manager None),
           ShewenyClient.with_commands (Some [("say", say); ("report", report)])
             sample_client,
           [] ++ CommandsSet
                   (CommandsManager.getData_collection (global_manager None)
                      [("say", say); ("report", report)])
                   (scopeOf None) :: rest)).
Proof.
  apply (proj1 (loadAndRegisterAll_registers_loaded (global_manager None)
                  sample_client sample_platform [])).
  - reflexivity.
  - discriminate.
  - discriminate.
Defined.

(* ------------------------------------------------------------------ *)
(** ** CommandsManager.createCommand, editCommand, deleteCommand,
       deleteAllCommands *)

Lemma getData_command_collection m key command :
  CommandsManager.getData_collection m [(key, command)] = projected m command.
Proof. now rewrite getData_collection_flat_map; simpl; rewrite app_nil_r. Qed.

(** X14: createCommand and editCommand send for a command the very entry
    the projection of a collection holds for it, in one call scoped by the
    guild id passed (globally without one; the manager's guild id plays no
    part in the scope); for a message command they call nothing and
    resolve to undefined. *)
Theorem create_edit_send_projection
  (m : CommandsManager.t) (client : ShewenyClient.t) (api : CommandApi.t)
  (command : Command.t) (oldCommand : ApplicationCommandResolvable)
  (guildId : option Snowflake) (calls : list CommandCall)
  (Happ : ShewenyClient.application client <> None)
  (Hold : oldCommand <> EmptyString) :
  (isMessageCommand command = true ->
   CommandsManagerExt.createCommand m client api (Some command) guildId calls
   = (Resolved None, calls) /\
   CommandsManagerExt.editCommand m client api (Some oldCommand) (Some command)
     guildId calls
   = (Resolved None, calls)) /\
  (isMessageCommand command = false ->
   exists d,
     CommandsManager.getData_collection m [(Command.name command, command)] = [d] /\
     CommandsManagerExt.createCommand m client api (Some command) guildId calls
     = (after (CommandApi.create api d (scopeOf guildId))
              (match CommandApi.create api d (scopeOf guildId) with
               | Resolved c => Some c
               | _ => None
               end),
        calls ++ [Create d (scopeOf guildId)]) /\
     CommandsManagerExt.editCommand m client api (Some oldCommand) (Some command)
       guildId calls
     = (after (CommandApi.edit api oldCommand d (scopeOf guildId))
              (match CommandApi.edit api oldCommand d (scopeOf guildId) with
               | Resolved c => Some c
               | _ => None
               end),
        calls ++ [Edit oldCommand d (scopeOf guildId)])).
Proof.
  apply String.eqb_neq in Hold.
  unfold CommandsManagerExt.createCommand, CommandsManagerExt.editCommand.
  cbn [truthy_string or_default]. rewrite Hold. cbn [negb].
  unfold bind, lift, CommandsManager.getData. cbn [default_param].
  split.
  - intros Hmsg. pose proof (projected_message m command Hmsg) as Hp.
    unfold projected in Hp.
    destruct (CommandsManager.getData_command m command); [discriminate|].
    split; reflexivity.
  - intros Hreg. destruct (projected_registrable m command Hreg) as [d Hd].
    exists d. rewrite getData_command_collection. split; [exact Hd|].
    unfold projected in Hd.
    destruct (CommandsManager.getData_command m command) as [d'|]; [|discriminate].
    injection Hd as ->.
    unfold CommandsManagerExt.application_commands_create,
      CommandsManagerExt.application_commands_edit, scopeOf.
    destruct (ShewenyClient.application client); [|contradiction].
    destruct (truthy_string guildId); split;
      match goal with
      | |- context [CommandApi.create api d ?s] =>
          destruct (CommandApi.create api d s); reflexivity
      | |- context [CommandApi.edit api oldCommand d ?s] =>
          destruct (CommandApi.edit api oldCommand d s); reflexivity
      end.
Qed.

Lemma create_edit_send_projection_witness :
  exists d,
    CommandsManager.getData_collection guild_manager [("ping", ping)] = [d] /\
    CommandsManagerExt.createCommand guild_manager sample_client sample_api
      (Some ping) None []
    = (Resolved (Some {| ApplicationCommand.id := "ping";
                         ApplicationCommand.name := "ping" |}),
       [Create d None]) /\
    CommandsManagerExt.editCommand guild_manager sample_client sample_api
      (Some "9001") (Some ping) None []
    = (Resolved (Some {| ApplicationCommand.id := "9001";
                         ApplicationCommand.name := "ping" |}),
       [Edit "9001" d None]).
Proof.
  destruct (proj2 (create_edit_send_projection guild_manager sample_client
                     sample_api ping "9001" None []
                     ltac:(discriminate) ltac:(discriminate)) eq_refl)
    as (d & Hd & Hc & He).
  exists d. split; [exact Hd|]. split.
  - refine (eq_trans Hc _). injection Hd as <-. reflexivity.
  - refine (eq_trans He _). injection Hd as <-. reflexivity.
Defined.

(** Each single-command call rejects a missing argument with its own
    error before anything is sent: "Command not found" for createCommand
    and deleteCommand, and for editCommand "Old Command not found" -- also
    when the new command is missing too -- then "New Command not found". *)
Theorem single_command_calls_missing_argument
  (m : CommandsManager.t) (client : ShewenyClient.t) (api : CommandApi.t)
  (guildId : option Snowflake) (calls : list CommandCall) :
  CommandsManagerExt.createCommand m client api None guildId calls
  = (Rejected (Error "Command not found"), calls) /\
  (forall oldCommand newCommand,
     truthy_string oldCommand = false ->
     CommandsManagerExt.editCommand m client api oldCommand newCommand guildId calls
     = (Rejected (Error "Old Command not found"), calls)) /\
  (forall oldCommand,
     truthy_string oldCommand = true ->
     CommandsManagerExt.editCommand m client api oldCommand None guildId calls
     = (Rejected (Error "New Command not found"), calls)) /\
  (forall command,
     truthy_string command = false ->
     CommandsManagerExt.deleteCommand client api command guildId calls
     = (Rejected (Error "Command not found"), calls)).
Proof.
  repeat split.
  - intros o n H. unfold CommandsManagerExt.editCommand. now rewrite H.
  - intros o H. unfold CommandsManagerExt.editCommand. now rewrite H.
  - intros c H. unfold CommandsManagerExt.deleteCommand. now rewrite H.
Qed.

(** X15: while the client has no application yet, createCommand,
    editCommand, deleteCommand and deleteAllCommands resolve to undefined
    and send nothing, for any well-formed arguments. *)
Theorem calls_without_application
  (m : CommandsManager.t) (client : ShewenyClient.t) (api : CommandApi.t)
  (platform : Platform.t)
  (Happ : ShewenyClient.application client = None) :
  (forall command guildId calls,
     CommandsManagerExt.createCommand m client api (Some command) guildId calls
     = (Resolved None, calls)) /\
  (forall oldCommand newCommand guildId calls,
     truthy_string oldCommand = true ->
     CommandsManagerExt.editCommand m client api oldCommand (Some newCommand)
       guildId calls
     = (Resolved None, calls)) /\
  (forall command guildId calls,
     truthy_string command = true ->
     CommandsManagerExt.deleteCommand client api command guildId calls
     = (Resolved None, calls)) /\
  (forall guildId trace,
     CommandsManagerExt.deleteAllCommands client platform guildId trace
     = (Resolved None, trace)).
Proof.
  repeat split.
  - intros command guildId calls.
    unfold CommandsManagerExt.createCommand, bind, lift, CommandsManager.getData,
      CommandsManagerExt.application_commands_create.
    cbn [default_param]. rewrite Happ.
    destruct (CommandsManager.getData_command m command);
      destruct (truthy_string guildId); reflexivity.
  - intros o n guildId calls Ho.
    unfold CommandsManagerExt.editCommand, bind, lift, CommandsManager.getData,
      CommandsManagerExt.application_commands_edit.
    cbn [default_param]. rewrite Ho, Happ. cbn [negb].
    destruct (CommandsManager.getData_command m n);
      destruct (truthy_string guildId); reflexivity.
  - intros c guildId calls Hc.
    unfold CommandsManagerExt.deleteCommand,
      CommandsManagerExt.application_commands_delete.
    rewrite Hc, Happ. cbn [negb]. destruct (truthy_string guildId); reflexivity.
  - intros guildId trace.
    unfold CommandsManagerExt.deleteAllCommands,
      CommandsManager.application_commands_set.
    rewrite Happ. destruct (truthy_string guildId); reflexivity.
Qed.

Lemma calls_without_application_witness :
  CommandsManagerExt.deleteAllCommands
    {| ShewenyClient.admins := [];
       ShewenyClient.events := [];
       ShewenyClient.collections_commands := None;
       ShewenyClient.application := None;
       ShewenyClient.guilds := [];
       ShewenyClient.ready_emitted := false |}
    sample_platform (Some "1001") []
  = (Resolved None, []).
Proof.
  apply (calls_without_application guild_manager
           {| ShewenyClient.admins := [];
              ShewenyClient.events := [];
              ShewenyClient.collections_commands := None;
              ShewenyClient.application := None;
              ShewenyClient.guilds := [];
              ShewenyClient.ready_emitted := false |}
           sample_api sample_platform eq_refl).
Defined.

(** With an application, deleteAllCommands is one bulk replacement
    by the empty list, scoped by the guild id passed and global without
    one; a following registration of a collection with a non-empty
    projection sends that projection again. *)
Theorem deleteAll_then_registerAll
  (m : CommandsManager.t) (client : ShewenyClient.t) (platform : Platform.t)
  (own : Collection.t Command.t) (guildId : option Snowflake) (trace : Trace)
  (Happ : ShewenyClient.application client <> None)
  (Hown : CommandsManager.commands m = Some own)
  (Hready : ShewenyClient.ready_emitted client = true)
  (Hdata : CommandsManager.getData_collection m own <> []) :
  exists o,
    CommandsManagerExt.deleteAllCommands client platform guildId trace
    = (o, trace ++ [CommandsSet [] (scopeOf guildId)]) /\
    exists rest,
      snd (CommandsManager.registerAllApplicationCommands m client platform
             None guildId (trace ++ [CommandsSet [] (scopeOf guildId)]))
      = trace
        ++ CommandsSet [] (scopeOf guildId)
        :: CommandsSet (CommandsManager.getData_collection m own)
                       (scopeOf (default_param guildId (CommandsManager.guildId m)))
        :: rest.
Proof.
  exists (fst (CommandsManagerExt.deleteAllCommands client platform guildId trace)).
  split.
  - unfold CommandsManagerExt.deleteAllCommands, scopeOf,
      CommandsManager.application_commands_set.
    destruct (ShewenyClient.application client); [|contradiction].
    destruct (truthy_string guildId); reflexivity.
  - destruct (registerAll_submits_own_projection m client platform None guildId own
                (trace ++ [CommandsSet [] (scopeOf guildId)])) as [rest Hrest];
      try assumption.
    + cbn [default_param]. rewrite Hown. discriminate.
    + exists rest. rewrite Hrest, <- app_assoc. reflexivity.
Qed.

Lemma deleteAll_then_registerAll_witness :
  exists o,
    CommandsManagerExt.deleteAllCommands sample_client sample_platform None []
    = (o, [] ++ [CommandsSet [] (scopeOf None)]) /\
    exists rest,
      snd (CommandsManager.registerAllApplicationCommands guild_manager sample_client
             sample_platform None None ([] ++ [CommandsSet [] (scopeOf None)]))
      = []
        ++ CommandsSet [] (scopeOf None)
        :: CommandsSet (CommandsManager.getData_collection guild_manager [("ping", ping)])
                       (scopeOf (default_param None (CommandsManager.guildId guild_manager)))
        :: rest.
Proof.
  apply (deleteAll_then_registerAll guild_manager sample_client sample_platform
           [("ping", ping)] None []).
  - discriminate.
  - reflexivity.
  - reflexivity.
  - discriminate.
Defined.

(* ------------------------------------------------------------------ *)
(** ** Command: unregister, register and reload, further *)

Lemma truthy_string_Some p : p <> EmptyString -> truthy_string (Some p) = true.
Proof. intros H. apply String.eqb_neq in H. simpl. now rewrite H. Qed.

(** What a reload computes, in full. *)
Lemma reload_eval (this : Command.t) (w : CommandMethods.World) p data :
  Command.path this = Some p -> p <> EmptyString ->
  Collection.get p (ModuleSystem.disk (Process.modules w)) = Some (Some data) ->
  let AC := Command.constructor data in
  let kept := option_map (Collection.delete (Command.name this))
                (ShewenyClient.collections_commands (Process.client w)) in
  let cs := match kept with
            | Some c => Collection.set (CommandData.name data) AC c
            | None => [(CommandData.name data, AC)]
            end in
  CommandMethods.reload this w
  = (Resolved (Some cs),
     {| Process.client :=
          match kept with
          | Some _ => ShewenyClient.with_commands (Some cs) (Process.client w)
          | None => Process.client w
          end;
        Process.modules :=
          {| ModuleSystem.disk := ModuleSystem.disk (Process.modules w);
             ModuleSystem.cache :=
               Collection.set p (Some data)
                 (Collection.delete p (ModuleSystem.cache (Process.modules w))) |} |}).
Proof.
  intros Hp Hne Hdisk AC kept cs.
  assert (Hres : Collection.get p (ModuleSystem.disk (Process.modules w)) <> None)
    by (rewrite Hdisk; discriminate).
  unfold CommandMethods.reload. rewrite Hp, (truthy_string_Some p Hne).
  unfold bind at 1. rewrite (unregister_eval this w p Hp Hres).
  unfold bind at 1.
  unfold CommandMethods.register, bind at 1, Process.in_modules,
    ModuleSystem.import, ModuleSystem.resolve.
  rewrite Hp.
  cbn [Process.modules Process.client ModuleSystem.invalidate
       ModuleSystem.disk ModuleSystem.cache].
  rewrite Hdisk, get_delete_same. cbv iota beta. rewrite ?Hdisk.
  unfold bind, get_state, Process.modify_client, ret.
  cbn [Process.modules Process.client ShewenyClient.collections_commands
       ShewenyClient.with_commands].
  fold kept. unfold cs. fold AC.
  change (Command.name AC) with (CommandData.name data).
  destruct kept as [c|] eqn:Ek.
  - reflexivity.
  - do 3 f_equal. unfold kept in Ek.
    destruct (ShewenyClient.collections_commands (Process.client w)) eqn:Ec;
      [discriminate|].
    rewrite <- Ec. apply with_commands_id.
Qed.

(** X16: the instance a reload puts into the collection has no recorded
    path: reloading that stored instance is a no-op resolving to null, and
    unregistering it throws. *)
Theorem reloaded_instance_cannot_reload
  (this : Command.t) (w : CommandMethods.World) (p : string) (data : CommandData.t)
  (Hp : Command.path this = Some p) (Hne : p <> EmptyString)
  (Hdisk : Collection.get p (ModuleSystem.disk (Process.modules w))
           = Some (Some data)) :
  exists cs w2 AC,
    CommandMethods.reload this w = (Resolved (Some cs), w2) /\
    Collection.get (CommandData.name data) cs = Some AC /\
    Command.path AC = None /\
    CommandMethods.reload AC w2 = (Resolved None, w2) /\
    fst (CommandMethods.unregister AC w2)
    = Rejected (TypeError "The request argument must be of type string").
Proof.
  do 2 eexists. exists (Command.constructor data).
  split; [apply (reload_eval this w p data Hp Hne Hdisk)|].
  split; [|split; [reflexivity|split; [reflexivity|]]].
  - destruct (option_map _ _); [apply get_set_same|].
    simpl. now rewrite String.eqb_refl.
  - now apply unregister_without_path.
Qed.

Lemma reloaded_instance_cannot_reload_witness :
  exists cs w2 AC,
    CommandMethods.reload ping renamed_world = (Resolved (Some cs), w2) /\
    Collection.get "pong" cs = Some AC /\
    Command.path AC = None /\
    CommandMethods.reload AC w2 = (Resolved None, w2) /\
    fst (CommandMethods.unregister AC w2)
    = Rejected (TypeError "The request argument must be of type string").
Proof.
  apply (reloaded_instance_cannot_reload ping renamed_world ping_path pong_data).
  - reflexivity.
  - discriminate.
  - reflexivity.
Defined.



(** X18: after a reload the module cache holds, for the command's path,
    the exports just read from the source, the other cache entries and
    the sources being as before: a following import of the path yields the
    reloaded module without reading the source again. *)
Theorem reload_refreshes_cache
  (this : Command.t) (w : CommandMethods.World) (p : string) (data : CommandData.t)
  (Hp : Command.path this = Some p) (Hne : p <> EmptyString)
  (Hdisk : Collection.get p (ModuleSystem.disk (Process.modules w))
           = Some (Some data)) :
  exists cs w2,
    CommandMethods.reload this w = (Resolved (Some cs), w2) /\
    Collection.get p (ModuleSystem.cache (Process.modules w2)) = Some (Some data) /\
    (forall q, q <> p ->
       Collection.get q (ModuleSystem.cache (Process.modules w2))
       = Collection.get q (ModuleSystem.cache (Process.modules w))) /\
    ModuleSystem.disk (Process.modules w2) = ModuleSystem.disk (Process.modules w) /\
    ModuleSystem.import (Some p) (Process.modules w2)
    = (Resolved (Some data), Process.modules w2).
Proof.
  do 2 eexists. split; [apply (reload_eval this w p data Hp Hne Hdisk)|].
  cbn [Process.modules ModuleSystem.cache ModuleSystem.disk].
  split; [apply get_set_same|]. split; [|split; [reflexivity|]].
  - intros q Hq. rewrite get_set_other by assumption. now apply get_delete_other.
  - unfold ModuleSystem.import, ModuleSystem.resolve.
    cbn [ModuleSystem.cache ModuleSystem.disk].
    now rewrite Hdisk, get_set_same.
Qed.

Lemma reload_refreshes_cache_witness :
  exists cs w2,
    CommandMethods.reload ping renamed_world = (Resolved (Some cs), w2) /\
    Collection.get ping_path (ModuleSystem.cache (Process.modules w2))
    = Some (Some pong_data).
Proof.
  destruct (reload_refreshes_cache ping renamed_world ping_path pong_data)
    as (cs & w2 & Hrun & Hcache & _).
  - reflexivity.
  - discriminate.
  - reflexivity.
  - exists cs, w2. split; assumption.
Defined.

(** X19: when the path of a definition is not recorded, or no longer
    resolves, unregister throws -- a TypeError, respectively a module-not-
    found error -- after it has removed the entry of the definition's name
    from the collection; the module cache is left as it was. *)
Theorem unregister_fails_after_removal
  (this : Command.t) (w : CommandMethods.World) :
  let removed :=
    {| Process.client :=
         ShewenyClient.with_commands
           (option_map (Collection.delete (Command.name this))
              (ShewenyClient.collections_commands (Process.client w)))
           (Process.client w);
       Process.modules := Process.modules w |} in
  (Command.path this = None ->
   CommandMethods.unregister this w
   = (Rejected (TypeError "The request argument must be of type string"), removed)) /\
  (forall p, Command.path this = Some p ->
     Collection.get p (ModuleSystem.disk (Process.modules w)) = None ->
     CommandMethods.unregister this w = (Rejected (ModuleNotFound p), removed)).
Proof.
  assert (Hclient :
    match ShewenyClient.collections_commands (Process.client w) with
    | Some cs =>
        ShewenyClient.with_commands
          (Some (Collection.delete (Command.name this) cs)) (Process.client w)
    | None => Process.client w
    end
    = ShewenyClient.with_commands
        (option_map (Collection.delete (Command.name this))
           (ShewenyClient.collections_commands (Process.client w)))
        (Process.client w)).
  { destruct (ShewenyClient.collections_commands (Process.client w)) eqn:E;
      cbn [option_map]; [reflexivity|]. now rewrite <- E, with_commands_id. }
  cbv zeta. split.
  - intros Hp.
    unfold CommandMethods.unregister, bind, Process.modify_client, Process.resolve,
      ModuleSystem.resolve. cbn [Process.client Process.modules].
    now rewrite Hp, Hclient.
  - intros p Hp Hgone.
    unfold CommandMethods.unregister, bind, Process.modify_client, Process.resolve,
      ModuleSystem.resolve. cbn [Process.client Process.modules].
    now rewrite Hp, Hgone, Hclient.
Qed.

(** X20: when the client has a command collection, register stores the
    constructed instance in it under the instance's name and resolves to
    that same collection: an entry of that name is replaced where it
    stands, otherwise the instance is appended; every other entry is
    kept. *)
Theorem register_into_collection
  (this : Command.t) (w : CommandMethods.World) (p : string) (data : CommandData.t)
  (commands : Collection.t Command.t)
  (Hcs : ShewenyClient.collections_commands (Process.client w) = Some commands)
  (Hp : Command.path this = Some p)
  (Hres : Collection.get p (ModuleSystem.disk (Process.modules w)) <> None)
  (Hload : loaded (Process.modules w) p = Some (Some data)) :
  let AC := Command.constructor data in
  exists cs w',
    CommandMethods.register this w = (Resolved cs, w') /\
    ShewenyClient.collections_commands (Process.client w') = Some cs /\
    Collection.get (CommandData.name data) cs = Some AC /\
    (forall k, k <> CommandData.name data ->
       Collection.get k cs = Collection.get k commands) /\
    (In (CommandData.name data) (Collection.keys commands) ->
     Collection.keys cs = Collection.keys commands) /\
    (~ In (CommandData.name data) (Collection.keys commands) ->
     Collection.keys cs = Collection.keys commands ++ [CommandData.name data]).
Proof.
  intros AC.
  destruct (register_eval this w p data Hp Hres Hload) as [ms' Hrun].
  rewrite Hcs in Hrun. fold AC in Hrun.
  change (Command.name AC) with (CommandData.name data) in Hrun.
  do 2 eexists. split; [exact Hrun|].
  split; [reflexivity|]. split; [apply get_set_same|].
  split; [intros k Hk; now apply get_set_other|].
  split; [apply keys_set_present | apply keys_set_absent].
Qed.

Lemma register_into_collection_witness :
  exists cs w',
    CommandMethods.register ping renamed_world = (Resolved cs, w') /\
    ShewenyClient.collections_commands (Process.client w') = Some cs /\
    Collection.keys cs = ["ping"].
Proof.
  destruct (register_into_collection ping renamed_world ping_path ping_data
              [("ping", ping)])
    as (cs & w' & Hrun & Hclient & _ & _ & Hkeys & _).
  - reflexivity.
  - reflexivity.
  - simpl. discriminate.
  - reflexivity.
  - exists cs, w'. split; [exact Hrun|]. split; [exact Hclient|].
    apply Hkeys. simpl. now left.
Defined.

Lemma delete_delete {V} k (c : Collection.t V) :
  Collection.delete k (Collection.delete k c) = Collection.delete k c.
Proof. apply delete_absent, get_delete_same. Qed.

(** X21: unregister is idempotent: once it has succeeded, calling it again
    succeeds and changes nothing. *)
Theorem unregister_idempotent
  (this : Command.t) (w w1 : CommandMethods.World) (p : string)
  (Hp : Command.path this = Some p)
  (Hres : Collection.get p (ModuleSystem.disk (Process.modules w)) <> None)
  (Hrun : CommandMethods.unregister this w = (Resolved true, w1)) :
  CommandMethods.unregister this w1 = (Resolved true, w1).
Proof.
  rewrite (unregister_eval this w p Hp Hres) in Hrun. injection Hrun as <-.
  rewrite (unregister_eval this _ p Hp) by exact Hres.
  cbn [Process.client Process.modules ShewenyClient.collections_commands
       ShewenyClient.with_commands].
  do 2 f_equal.
  - destruct (ShewenyClient.collections_commands (Process.client w));
      cbn [option_map]; [|reflexivity].
    now rewrite delete_delete.
  - unfold ModuleSystem.invalidate. cbn [ModuleSystem.cache ModuleSystem.disk].
    now rewrite delete_delete.
Qed.

Lemma unregister_idempotent_witness :
  CommandMethods.unregister ping
    (snd (CommandMethods.unregister ping renamed_world))
  = (Resolved true, snd (CommandMethods.unregister ping renamed_world)).
Proof.
  apply (unregister_idempotent ping renamed_world _ ping_path).
  - reflexivity.
  - simpl. discriminate.
  - reflexivity.
Defined.

(* ------------------------------------------------------------------ *)
(** ** EventsHandler: traversal and scan, further *)

Lemma DirEntry_nested_ind (P : EventsHandler.DirEntry -> Prop) :
  (forall item, P (EventsHandler.File item)) ->
  (forall item result, Forall P result -> P (EventsHandler.Directory item result)) ->
  forall entry, P entry.
Proof.
  intros Hfile Hdir. fix IH 1. intros [item|item result].
  - apply Hfile.
  - apply Hdir. induction result as [|e r IHr]; constructor; [apply IH | exact IHr].
Qed.

Lemma read_shift_of_visit dir (result : list EventsHandler.DirEntry) :
  Forall (fun entry => forall d files,
            EventsHandler.visit d entry files
            = files ++ EventsHandler.visit d entry []) result ->
  forall files,
    EventsHandler.read dir result files = files ++ EventsHandler.read dir result [].
Proof.
  unfold EventsHandler.read.
  induction 1 as [|e r He Hr IH]; intros files; simpl.
  - now rewrite app_nil_r.
  - rewrite IH, (IH (EventsHandler.visit dir e [])), He. now rewrite app_assoc.
Qed.

Lemma visit_shift entry : forall dir files,
  EventsHandler.visit dir entry files = files ++ EventsHandler.visit dir entry [].
Proof.
  induction entry as [item|item result IH] using DirEntry_nested_ind;
    intros dir files.
  - reflexivity.
  - cbn [EventsHandler.visit].
    apply (read_shift_of_visit (EventsHandler.join dir item) result IH files).
Qed.

Lemma read_shift dir result files :
  EventsHandler.read dir result files = files ++ EventsHandler.read dir result [].
Proof.
  apply read_shift_of_visit. apply Forall_forall. intros e _ d fs. apply visit_shift.
Qed.

Lemma read_cons dir entry rest :
  EventsHandler.read dir (entry :: rest) []
  = EventsHandler.visit dir entry [] ++ EventsHandler.read dir rest [].
Proof.
  unfold EventsHandler.read at 1. cbn [fold_left].
  fold (EventsHandler.read dir rest (EventsHandler.visit dir entry [])).
  apply read_shift.
Qed.

Lemma fold_add_shift (l : list EventsHandler.DirEntry) : forall n,
  fold_left (fun n entry => n + filesIn entry) l n
  = n + fold_left (fun n entry => n + filesIn entry) l 0.
Proof.
  induction l as [|e r IH]; intros n; simpl; [lia|].
  rewrite IH, (IH (filesIn e)). lia.
Qed.

Lemma join_join dir item rest :
  EventsHandler.join (EventsHandler.join dir item) rest
  = EventsHandler.join dir (EventsHandler.join item rest).
Proof.
  unfold EventsHandler.join.
  assert (Hassoc : forall a b c : string, ((a ++ b) ++ c = a ++ (b ++ c))%string).
  { induction a as [|ch a IHa]; intros b c; simpl; [reflexivity | now rewrite IHa]. }
  now rewrite !Hassoc.
Qed.

Lemma visit_spec entry : forall dir,
  length (EventsHandler.visit dir entry []) = filesIn entry /\
  forall p, In p (EventsHandler.visit dir entry []) ->
            exists rest, p = EventsHandler.join dir rest.
Proof.
  induction entry as [item|item result IH] using DirEntry_nested_ind; intros dir.
  - split; [reflexivity|]. intros p [<-|[]]. now exists item.
  - cbn [EventsHandler.visit filesIn].
    fold (EventsHandler.read (EventsHandler.join dir item) result []).
    induction IH as [|e r He Hr IHr].
    + split; [reflexivity | intros p []].
    + rewrite read_cons. cbn [fold_left]. rewrite fold_add_shift.
      destruct IHr as [Hlen Hin]. destruct (He (EventsHandler.join dir item)) as [Hl1 Hi1].
      split.
      * rewrite length_app, Hl1, Hlen. reflexivity.
      * intros p Hp. apply in_app_iff in Hp. destruct Hp as [Hp|Hp].
        -- destruct (Hi1 p Hp) as [rest ->]. rewrite join_join. eauto.
        -- now apply Hin.
Qed.

(** X22: readDirAndPush returns one path per file anywhere below the
    directory, each of them a path below that directory; the files of a
    subdirectory come, in their own order, at the place of the
    subdirectory, and a file's own path at the place of the file. *)
Theorem readDirAndPush_lists_files (d : string)
  (tree : list EventsHandler.DirEntry) :
  length (EventsHandler.readDirAndPush d tree)
  = fold_left (fun n entry => n + filesIn entry) tree 0 /\
  (forall p, In p (EventsHandler.readDirAndPush d tree) ->
             exists rest, p = EventsHandler.join d rest) /\
  (forall item rest,
     tree = EventsHandler.File item :: rest ->
     EventsHandler.readDirAndPush d tree
     = EventsHandler.join d item :: EventsHandler.readDirAndPush d rest) /\
  (forall item result rest,
     tree = EventsHandler.Directory item result :: rest ->
     EventsHandler.readDirAndPush d tree
     = EventsHandler.readDirAndPush (EventsHandler.join d item) result
       ++ EventsHandler.readDirAndPush d rest).
Proof.
  unfold EventsHandler.readDirAndPush. split; [|split; [|split]].
  - induction tree as [|e r IH]; [reflexivity|].
    rewrite read_cons, length_app, IH. cbn [fold_left].
    rewrite (fold_add_shift r (0 + filesIn e)), (proj1 (visit_spec e d)). lia.
  - induction tree as [|e r IH]; [intros p []|].
    intros p. rewrite read_cons, in_app_iff. intros [Hp|Hp].
    + now apply (proj2 (visit_spec e d)).
    + now apply IH.
  - intros item rest ->. now rewrite read_cons.
  - intros item result rest ->. now rewrite read_cons.
Qed.

Lemma in_set_inv {V} k v (c : Collection.t V) entry :
  In entry (Collection.set k v c) -> entry = (k, v) \/ In entry c.
Proof.
  induction c as [|[k' v'] r IH]; simpl.
  - intros [<-|[]]. now left.
  - destruct (k =? k'); simpl.
    + intros [<-|H]; [now left | right; now right].
    + intros [<-|H]; [right; now left|].
      destruct (IH H) as [->|H']; [now left | right; now right].
Qed.

Lemma visited_scanned (ms : ModuleSystem.t Event.t) paths p events :
  In p paths -> scanned paths events ->
  scanned paths (visited (loaded ms p) p events).
Proof.
  intros Hp Hs. unfold visited.
  destruct (loaded ms p) as [[instance|]|]; try assumption.
  destruct (Event.name instance) as [name|] eqn:En; try assumption.
  destruct (name =? EmptyString) eqn:Ee; [assumption|].
  intros k e Hin. apply in_set_inv in Hin. destruct Hin as [[= -> ->]|Hin].
  - split; [exact En|]. split; [now apply String.eqb_neq|]. now exists p.
  - now apply Hs.
Qed.

Lemma fold_visited_scanned (ms : ModuleSystem.t Event.t) paths l : forall events,
  (forall p, In p l -> In p paths) -> scanned paths events ->
  scanned paths (fold_left (fun events p => visited (loaded ms p) p events) l events).
Proof.
  induction l as [|p r IH]; intros events Hsub Hs; simpl; [assumption|].
  apply IH; [intros q Hq; apply Hsub; now right|].
  apply visited_scanned; [apply Hsub; now left | assumption].
Qed.

(** X23: on the collection a new EventsHandler leaves in the client, a
    scan whose modules all resolve stores only instances keyed by their own
    non-empty name, each with the path of the traversed module it was
    constructed from recorded, and no key twice. *)
Theorem registerAll_after_constructor
  (client0 : ShewenyClient.t) (w : EventsHandler.World)
  (mainPath dir : string) (tree : list EventsHandler.DirEntry)
  (Hnew : EventsHandlerExt.constructor client0 dir = Resolved (Process.client w))
  (Hres : forall p,
     In p (EventsHandler.readDirAndPush (EventsHandler.join mainPath dir) tree) ->
     Collection.get p (ModuleSystem.disk (Process.modules w)) <> None) :
  exists events w',
    EventsHandler.registerAll mainPath dir tree w = (Resolved events, w') /\
    ShewenyClient.events (Process.client w') = events /\
    scanned (EventsHandler.readDirAndPush (EventsHandler.join mainPath dir) tree)
            events /\
    Collection.wf events.
Proof.
  assert (Hempty : ShewenyClient.events (Process.client w) = []).
  { unfold EventsHandlerExt.constructor in Hnew.
    destruct (dir =? EmptyString); [discriminate|]. injection Hnew as <-. reflexivity. }
  set (paths := EventsHandler.readDirAndPush (EventsHandler.join mainPath dir) tree) in *.
  destruct (registerAll_loop_eval paths w Hres) as (w' & Hloop & Hclient).
  rewrite Hempty in Hclient.
  eexists. exists w'. split; [|split; [|split]].
  - unfold EventsHandler.registerAll, EventsHandler.registerAll_paths.
    fold paths. unfold bind at 1. rewrite Hloop.
    unfold bind, get_state, ret. rewrite Hclient. reflexivity.
  - rewrite Hclient. reflexivity.
  - apply fold_visited_scanned; [auto | intros k e []].
  - apply fold_visited_wf. constructor.
Qed.

Lemma registerAll_after_constructor_witness :
  exists events w',
    EventsHandler.registerAll "/bot" "events" events_tree events_world
    = (Resolved events, w') /\
    ShewenyClient.events (Process.client w') = events /\
    scanned (EventsHandler.readDirAndPush (EventsHandler.join "/bot" "events")
                                          events_tree) events /\
    Collection.wf events.
Proof.
  apply (registerAll_after_constructor sample_client events_world
           "/bot" "events" events_tree).
  - reflexivity.
  - intros p [<-|[<-|[<-|[]]]]; simpl; discriminate.
Defined.

Lemma registerAll_paths_eval (w : EventsHandler.World) evtsPaths :
  (forall p, In p evtsPaths ->
     Collection.get p (ModuleSystem.disk (Process.modules w)) <> None) ->
  exists w',
    EventsHandler.registerAll_paths evtsPaths w
    = (Resolved
         (fold_left (fun events p => visited (loaded (Process.modules w) p) p events)
                    evtsPaths (ShewenyClient.events (Process.client w))),
       w').
Proof.
  intros Hres. destruct (registerAll_loop_eval evtsPaths w Hres) as (w' & Hloop & Hclient).
  exists w'. unfold EventsHandler.registerAll_paths, bind at 1. rewrite Hloop.
  unfold bind, get_state, ret. now rewrite Hclient.
Qed.

(** X24: a module without a default export, or whose instance has no name
    or an empty one, is skipped: the scan goes on and its result is the
    one of the scan without that module. *)
Theorem registerAll_skips_unnamed
  (w : EventsHandler.World) (before rest : list string) (p : string)
  (Hres : forall q, In q (before ++ p :: rest) ->
            Collection.get q (ModuleSystem.disk (Process.modules w)) <> None)
  (Hskip : loaded (Process.modules w) p = Some None \/
           exists instance,
             loaded (Process.modules w) p = Some (Some instance) /\
             truthy_string (Event.name instance) = false) :
  exists events w1 w2,
    EventsHandler.registerAll_paths (before ++ p :: rest) w = (Resolved events, w1) /\
    EventsHandler.registerAll_paths (before ++ rest) w = (Resolved events, w2).
Proof.
  destruct (registerAll_paths_eval w (before ++ p :: rest) Hres) as [w1 H1].
  destruct (registerAll_paths_eval w (before ++ rest)) as [w2 H2].
  { intros q Hq. apply Hres. apply in_app_iff in Hq. apply in_app_iff.
    destruct Hq; [now left | right; now right]. }
  do 3 eexists. split; [exact H1|]. rewrite H2. do 2 f_equal.
  rewrite !fold_left_app. cbn [fold_left]. f_equal.
  unfold visited. destruct Hskip as [-> | (instance & -> & Hn)]; [reflexivity|].
  destruct (Event.name instance) as [name|]; [|reflexivity].
  simpl in Hn. apply negb_false_iff in Hn. now rewrite Hn.
Qed.

Lemma registerAll_skips_unnamed_witness :
  exists events w1 w2,
    EventsHandler.registerAll_paths
      ([] ++ "/bot/events/util.js" :: ["/bot/events/message.js"])
      {| Process.client := sample_client;
         Process.modules :=
           {| ModuleSystem.disk :=
                [ ("/bot/events/util.js", None);
                  ("/bot/events/message.js", Some message_event) ];
              ModuleSystem.cache := [] |} |}
    = (Resolved events, w1) /\
    EventsHandler.registerAll_paths ([] ++ ["/bot/events/message.js"])
      {| Process.client := sample_client;
         Process.modules :=
           {| ModuleSystem.disk :=
                [ ("/bot/events/util.js", None);
                  ("/bot/events/message.js", Some message_event) ];
              ModuleSystem.cache := [] |} |}
    = (Resolved events, w2).
Proof.
  apply registerAll_skips_unnamed.
  - intros q [<-|[<-|[]]]; simpl; discriminate.
  - left. reflexivity.
Defined.

Lemma registerAll_step_unresolved (w : EventsHandler.World) p :
  Collection.get p (ModuleSystem.disk (Process.modules w)) = None ->
  EventsHandler.registerAll_step p w = (Rejected (ModuleNotFound p), w).
Proof.
  intros H. unfold EventsHandler.registerAll_step, bind, Process.in_modules,
    ModuleSystem.import, ModuleSystem.resolve.
  rewrite H. now destruct w.
Qed.

Lemma registerAll_loop_abort before : forall (w : EventsHandler.World) p rest,
  (forall q, In q before ->
     Collection.get q (ModuleSystem.disk (Process.modules w)) <> None) ->
  Collection.get p (ModuleSystem.disk (Process.modules w)) = None ->
  exists w',
    EventsHandler.registerAll_loop (before ++ p :: rest) w
    = (Rejected (ModuleNotFound p), w') /\
    ShewenyClient.events (Process.client w')
    = fold_left (fun events q => visited (loaded (Process.modules w) q) q events)
                before (ShewenyClient.events (Process.client w)).
Proof.
  induction before as [|q b IH]; intros w p rest Hres Hgone.
  - exists w. split; [|reflexivity].
    cbn [app EventsHandler.registerAll_loop]. unfold bind.
    now rewrite registerAll_step_unresolved.
  - destruct (registerAll_step_eval w q (Hres q (or_introl eq_refl)))
      as (w1 & Hstep & Hclient & Hdisk & Hsame).
    destruct (IH w1 p rest) as (w' & Hloop & Hev).
    { intros x Hx. rewrite Hdisk. apply Hres. now right. }
    { now rewrite Hdisk. }
    exists w'. split.
    + cbn [app EventsHandler.registerAll_loop]. unfold bind at 1.
      now rewrite Hstep.
    + rewrite Hev, Hclient. cbn [fold_left].
      change (ShewenyClient.events (ShewenyClient.with_events ?e _)) with e.
      apply fold_left_agree. intros evs x. now rewrite Hsame.
Qed.

(** X25: a path that does not resolve aborts the scan with a module-not-
    found error for that path: the modules before it are registered in the
    client's collection, those after it are not visited. *)
Theorem registerAll_aborts_on_unresolved
  (w : EventsHandler.World) (before rest : list string) (p : string)
  (Hres : forall q, In q before ->
            Collection.get q (ModuleSystem.disk (Process.modules w)) <> None)
  (Hgone : Collection.get p (ModuleSystem.disk (Process.modules w)) = None) :
  exists w',
    EventsHandler.registerAll_paths (before ++ p :: rest) w
    = (Rejected (ModuleNotFound p), w') /\
    (exists w1,
       EventsHandler.registerAll_paths before w
       = (Resolved (ShewenyClient.events (Process.client w')), w1)).
Proof.
  destruct (registerAll_loop_abort before w p rest Hres Hgone) as (w' & Hloop & Hev).
  exists w'. split.
  - unfold EventsHandler.registerAll_paths, bind. now rewrite Hloop.
  - destruct (registerAll_paths_eval w before Hres) as [w1 H1].
    exists w1. now rewrite H1, Hev.
Qed.

Lemma registerAll_aborts_on_unresolved_witness :
  exists w',
    EventsHandler.registerAll_paths
      (["/bot/events/ready.js"] ++ "/bot/events/gone.js" :: ["/bot/events/message.js"])
      events_world
    = (Rejected (ModuleNotFound "/bot/events/gone.js"), w') /\
    (exists w1,
       EventsHandler.registerAll_paths ["/bot/events/ready.js"] events_world
       = (Resolved (ShewenyClient.events (Process.client w')), w1)).
Proof.
  apply registerAll_aborts_on_unresolved.
  - intros q [<-|[]]. simpl. discriminate.
  - reflexivity.
Defined.

(** X26: the scan does not start from an empty collection: an entry that
    was in the client's collection before, under a key no traversed module
    declares, is still there afterwards. *)
Theorem registerAll_keeps_foreign_entries
  (w : EventsHandler.World) (mainPath dir : string)
  (tree : list EventsHandler.DirEntry) (k : string)
  (Hres : forall p,
     In p (EventsHandler.readDirAndPush (EventsHandler.join mainPath dir) tree) ->
     Collection.get p (ModuleSystem.disk (Process.modules w)) <> None)
  (Hforeign : forall p e,
     In p (EventsHandler.readDirAndPush (EventsHandler.join mainPath dir) tree) ->
     ~ declares (Process.modules w) p k e) :
  exists events w',
    EventsHandler.registerAll mainPath dir tree w = (Resolved events, w') /\
    Collection.get k events
    = Collection.get k (ShewenyClient.events (Process.client w)).
Proof.
  unfold EventsHandler.registerAll.
  destruct (registerAll_paths_eval w _ Hres) as [w' Hrun].
  do 2 eexists. split; [exact Hrun|].
  now apply fold_visited_keeps.
Qed.

Lemma registerAll_keeps_foreign_entries_witness :
  exists events w',
    EventsHandler.registerAll "/bot" "events" events_tree
      {| Process.client :=
           ShewenyClient.with_events [("legacy", message_event)] sample_client;
         Process.modules := Process.modules events_world |}
    = (Resolved events, w') /\
    Collection.get "legacy" events
    = Collection.get "legacy"
        (ShewenyClient.events
           (Process.client
              {| Process.client :=
                   ShewenyClient.with_events [("legacy", message_event)] sample_client;
                 Process.modules := Process.modules events_world |})).
Proof.
  apply registerAll_keeps_foreign_entries.
  - intros p [<-|[<-|[<-|[]]]]; simpl; discriminate.
  - intros p e [<-|[<-|[<-|[]]]] (Hl & Hn & _); vm_compute in Hl;
      injection Hl as <-; discriminate Hn.
Defined.
